(** * django-unicorn: request decoding and validation

    A shallow embedding of [src/django_unicorn/views/request.py]:
    [parse_multipart_data] (the path tree builder over form fields and
    uploaded files) and [ComponentRequest.__init__] with
    [ComponentRequest.validate_checksum] (body decoding, required-field
    checks, checksum gate and action classification).

    Python values are an inductive type; dictionaries are association
    lists in insertion order, which iteration and the digest can see;
    exceptions are values of type [exn] threaded through an error monad.
    Floating-point numbers are left out of the value type; strings are
    sequences of characters with code points below 256. *)

From Stdlib Require Import ZArith List String Ascii Bool Lia.
Import ListNotations.

Local Open Scope string_scope.
Local Open Scope list_scope.

(** ** Exceptions and the error monad *)

(** The exception classes that can leave the code under study.  The two
    with a message are the ones [request.py] raises itself. *)
Inductive exn : Type :=
| AssertionError (msg : string)
| UnicornViewError (msg : string)
| JSONDecodeError
| ValueError
| TypeError
| AttributeError
| KeyError
| IndexError
| OtherError (cls : string).

(** The Python class of an exception, as an [except] clause sees it. *)
Inductive exn_class : Type :=
| CAssertionError | CUnicornViewError | CJSONDecodeError | CValueError
| CTypeError | CAttributeError | CKeyError | CIndexError | COther (cls : string).

Definition class_of (e : exn) : exn_class :=
  match e with
  | AssertionError _ => CAssertionError
  | UnicornViewError _ => CUnicornViewError
  | JSONDecodeError => CJSONDecodeError
  | ValueError => CValueError
  | TypeError => CTypeError
  | AttributeError => CAttributeError
  | KeyError => CKeyError
  | IndexError => CIndexError
  | OtherError c => COther c
  end.

Definition res (A : Type) : Type := (exn + A)%type.

Definition ret {A : Type} (a : A) : res A := inr a.
Definition raise {A : Type} (e : exn) : res A := inl e.

Definition bind {A B : Type} (m : res A) (k : A -> res B) : res B :=
  match m with
  | inl e => inl e
  | inr a => k a
  end.

Declare Scope res_scope.
Delimit Scope res_scope with res.
Notation "x <- m ;; k" := (bind m (fun x => k))
  (at level 61, m at next level, right associativity) : res_scope.
Notation "' pat <- m ;; k" := (bind m (fun x => match x with pat => k end))
  (at level 61, pat pattern, m at next level, right associativity) : res_scope.
Local Open Scope res_scope.

(** ** Python values *)

(** An uploaded file: the three attributes the example component reads,
    and the lines iteration over the file yields. *)
Record UploadedFile : Type := mkFile {
  file_name : string;
  file_size : Z;
  file_content_type : string;
  file_lines : list string
}.

(** Dictionary keys.  JSON and form decoding only produce string keys; an
    integer key appears when [current[base_key][index] = value] hits a
    dictionary. *)
Inductive pykey : Type :=
| KStr (s : string)
| KInt (z : Z).

#[warnings="-register-all"]
Inductive value : Type :=
| VNone
| VBool (b : bool)
| VInt (z : Z)
| VStr (s : string)
| VBytes (b : string)
| VList (l : list value)
| VDict (d : list (pykey * value))
| VFile (f : UploadedFile).

Definition pykey_eqb (a b : pykey) : bool :=
  match a, b with
  | KStr s, KStr t => String.eqb s t
  | KInt i, KInt j => Z.eqb i j
  | _, _ => false
  end.

(** ** Strings *)

(** [c in s] for a one-character needle. *)
Fixpoint has_char (c : ascii) (s : string) : bool :=
  match s with
  | EmptyString => false
  | String a s' => Ascii.eqb a c || has_char c s'
  end.

(** [s.index(c)]: position of the first occurrence, [None] when the
    character does not occur (Python raises [ValueError]). *)
Fixpoint index_of (c : ascii) (s : string) : option nat :=
  match s with
  | EmptyString => None
  | String a s' =>
      if Ascii.eqb a c then Some O
      else match index_of c s' with
           | Some n => Some (S n)
           | None => None
           end
  end.

(** [s[a:b]] for non-negative bounds. *)
Definition slice (a b : nat) (s : string) : string := substring a (b - a) s.

(** [s[n:]]. *)
Fixpoint drop (n : nat) (s : string) : string :=
  match n, s with
  | O, _ => s
  | S n', String _ s' => drop n' s'
  | S _, EmptyString => EmptyString
  end.

(** [needle in s] for strings. *)
Fixpoint str_in (needle s : string) : bool :=
  prefix needle s ||
  match s with
  | EmptyString => false
  | String _ s' => str_in needle s'
  end.

(** [s.split(sep)] for a one-character separator: never empty. *)
Fixpoint split (sep : ascii) (s : string) : list string :=
  match s with
  | EmptyString => [EmptyString]
  | String c s' =>
      if Ascii.eqb c sep then EmptyString :: split sep s'
      else match split sep s' with
           | [] => [String c EmptyString]
           | p :: ps => String c p :: ps
           end
  end.

(** *** [int(text)] in base ten

    Surrounding white space is stripped, one sign is accepted, and the
    digits may be grouped by single underscores. *)

Definition is_space (c : ascii) : bool :=
  let n := nat_of_ascii c in
  ((9 <=? n) && (n <=? 13) || (n =? 32) || (n =? 133) || (n =? 160))%nat.

Definition is_digit (c : ascii) : bool :=
  let n := nat_of_ascii c in ((48 <=? n) && (n <=? 57))%nat.

Definition digit_value (c : ascii) : Z := Z.of_nat (nat_of_ascii c - 48).

Fixpoint lstrip (s : string) : string :=
  match s with
  | String c s' => if is_space c then lstrip s' else s
  | EmptyString => EmptyString
  end.

Fixpoint rstrip (s : string) : string :=
  match s with
  | EmptyString => EmptyString
  | String c s' =>
      match rstrip s' with
      | EmptyString => if is_space c then EmptyString else String c EmptyString
      | t => String c t
      end
  end.

(** The digit scanner: [after_underscore] records that the previous
    character was an underscore, which must be followed by a digit. *)
Fixpoint scan_digits (after_underscore : bool) (acc : Z) (s : string) : option Z :=
  match s with
  | EmptyString => if after_underscore then None else Some acc
  | String c s' =>
      if is_digit c then scan_digits false (10 * acc + digit_value c) s'
      else if Ascii.eqb c "_" then
        if after_underscore then None else scan_digits true acc s'
      else None
  end.

Definition unsigned_int (s : string) : option Z :=
  match s with
  | String c _ => if is_digit c then scan_digits false 0 s else None
  | EmptyString => None
  end.

Definition py_int (text : string) : option Z :=
  match rstrip (lstrip text) with
  | String "+" s => unsigned_int s
  | String "-" s => option_map Z.opp (unsigned_int s)
  | s => unsigned_int s
  end.

(** ** Operations of the Python object model *)

(** [bool(v)]. *)
Definition truthy (v : value) : bool :=
  match v with
  | VNone => false
  | VBool b => b
  | VInt z => negb (Z.eqb z 0)
  | VStr s => negb (String.eqb s "")
  | VBytes b => negb (String.eqb b "")
  | VList l => match l with [] => false | _ :: _ => true end
  | VDict d => match d with [] => false | _ :: _ => true end
  | VFile f => negb (String.eqb (file_name f) "")
  end.

(** [v is None]. *)
Definition is_None (v : value) : bool :=
  match v with
  | VNone => true
  | _ => false
  end.

(** [v == s] for a string [s]: only an equal string compares equal. *)
Definition eq_str (v : value) (s : string) : bool :=
  match v with
  | VStr t => String.eqb t s
  | _ => false
  end.

Fixpoint dict_lookup (k : pykey) (d : list (pykey * value)) : option value :=
  match d with
  | [] => None
  | (k', v) :: d' => if pykey_eqb k' k then Some v else dict_lookup k d'
  end.

(** [d[k] = v]: an existing key keeps its position, a new one goes last. *)
Fixpoint dict_set (k : pykey) (v : value) (d : list (pykey * value))
  : list (pykey * value) :=
  match d with
  | [] => [(k, v)]
  | (k', v') :: d' =>
      if pykey_eqb k' k then (k', v) :: d' else (k', v') :: dict_set k v d'
  end.

(** [d.get(k, default)] on a dictionary. *)
Definition dict_get (d : list (pykey * value)) (k : string) (default : value)
  : value :=
  match dict_lookup (KStr k) d with
  | Some v => v
  | None => default
  end.

(** [o.get(k, default)]: only dictionaries have the method. *)
Definition py_get (o : value) (k : string) (default : value) : res value :=
  match o with
  | VDict d => ret (dict_get d k default)
  | _ => raise AttributeError
  end.

(** [k in o] for a string [k]. *)
Definition py_contains (o : value) (k : string) : res bool :=
  match o with
  | VDict d =>
      match dict_lookup (KStr k) d with
      | Some _ => ret true
      | None => ret false
      end
  | VStr s => ret (str_in k s)
  | VList l => ret (existsb (fun x => eq_str x k) l)
  | VFile _ => ret false
  | _ => raise TypeError
  end.

(** The position a Python index denotes in a sequence of length [n]. *)
Definition position (n : nat) (i : Z) : option nat :=
  let j := (if i <? 0 then i + Z.of_nat n else i)%Z in
  if ((0 <=? j) && (j <? Z.of_nat n))%Z then Some (Z.to_nat j) else None.

Fixpoint list_set (n : nat) (v : value) (l : list value) : list value :=
  match n, l with
  | O, _ :: l' => v :: l'
  | S n', x :: l' => x :: list_set n' v l'
  | _, [] => []
  end.

(** [o[k]]. *)
Definition py_getitem (o : value) (k : pykey) : res value :=
  match o, k with
  | VDict d, _ =>
      match dict_lookup k d with
      | Some v => ret v
      | None => raise KeyError
      end
  | VList l, KInt i =>
      match position (List.length l) i with
      | Some n => match nth_error l n with
                  | Some v => ret v
                  | None => raise IndexError
                  end
      | None => raise IndexError
      end
  | VStr s, KInt i =>
      match position (String.length s) i with
      | Some n => match String.get n s with
                  | Some c => ret (VStr (String c EmptyString))
                  | None => raise IndexError
                  end
      | None => raise IndexError
      end
  | VBytes s, KInt i =>
      match position (String.length s) i with
      | Some n => match String.get n s with
                  | Some c => ret (VInt (Z.of_nat (nat_of_ascii c)))
                  | None => raise IndexError
                  end
      | None => raise IndexError
      end
  | _, _ => raise TypeError
  end.

(** [o[k] = v]; the object after the assignment. *)
Definition py_setitem (o : value) (k : pykey) (v : value) : res value :=
  match o, k with
  | VDict d, _ => ret (VDict (dict_set k v d))
  | VList l, KInt i =>
      match position (List.length l) i with
      | Some n => ret (VList (list_set n v l))
      | None => raise IndexError
      end
  | _, _ => raise TypeError
  end.

(** [len(o)]. *)
Definition py_len (o : value) : res Z :=
  match o with
  | VStr s | VBytes s => ret (Z.of_nat (String.length s))
  | VList l => ret (Z.of_nat (List.length l))
  | VDict d => ret (Z.of_nat (List.length d))
  | VFile f => ret (file_size f)
  | _ => raise TypeError
  end.

(** The values a [for] loop over [o] visits. *)
Definition py_iter (o : value) : res (list value) :=
  match o with
  | VList l => ret l
  | VDict d =>
      ret (map (fun kv => match fst kv with KStr s => VStr s | KInt i => VInt i end) d)
  | VStr s => ret (map (fun c => VStr (String c EmptyString)) (list_ascii_of_string s))
  | VBytes s => ret (map (fun c => VInt (Z.of_nat (nat_of_ascii c))) (list_ascii_of_string s))
  | VFile f => ret (map VBytes (file_lines f))
  | _ => raise TypeError
  end.

(** ** The path tree builder: [parse_multipart_data]

    The source walks [current] down the tree and mutates the dictionaries
    and lists it meets.  Every container in the tree is created by this
    function (or by [loads]) and stored once, so no two paths share an
    object; the embedding therefore returns the updated [current] and
    writes it back into its parent on the way up. *)

(** The request as the code reads it: [META], the raw [body], the pairs
    [POST.items()] and the pairs [FILES.lists()]. *)
Module HttpRequest.
Record t : Type := mk {
  META : list (string * string);
  body : string;
  POST : list (string * string);
  FILES : list (string * list UploadedFile)
}.
End HttpRequest.

(** ["[" in part and "]" in part] *)
Definition array_notation (part : string) : bool :=
  has_char "[" part && has_char "]" part.

(** [base_key = part[:part.index("[")]] and
    [index = int(part[part.index("[") + 1:part.index("]")])]. *)
Definition base_and_index (part : string) : res (string * Z) :=
  match index_of "[" part, index_of "]" part with
  | Some i, Some j =>
      let base_key := slice 0 i part in
      match py_int (slice (i + 1) j part) with
      | Some index => ret (base_key, index)
      | None => raise ValueError
      end
  | _, _ => raise ValueError
  end.

(** [if key not in current: current[key] = fresh] *)
Definition setdefault (current : value) (k : string) (fresh : value) : res value :=
  present <- py_contains current k ;;
  if present then ret current else py_setitem current (KStr k) fresh.

(** [while len(seq) <= index: seq.append(placeholder)].  A list grows by
    [index + 1 - len(seq)] elements; any other object that has a length
    not above [index] has no [append]. *)
Definition extend_to (seq : value) (index : Z) (placeholder : value) : res value :=
  n <- py_len seq ;;
  if (n <=? index)%Z then
    match seq with
    | VList l => ret (VList (l ++ repeat placeholder (Z.to_nat (index + 1 - n))))
    | _ => raise AttributeError
    end
  else ret seq.

(** Lines 46-56: the assignment at the final segment. *)
Definition assign_final (final_key : string) (v : value) (current : value)
  : res value :=
  if array_notation final_key then
    '(base_key, index) <- base_and_index final_key ;;
    current <- setdefault current base_key (VList []) ;;
    seq <- py_getitem current (KStr base_key) ;;
    seq <- extend_to seq index VNone ;;
    seq <- py_setitem seq (KInt index) v ;;
    py_setitem current (KStr base_key) seq
  else
    py_setitem current (KStr final_key) v.

(** Lines 29-56: the walk over [parts[:-1]] followed by the assignment at
    [parts[-1]], from the object [current]. *)
Fixpoint assign_path (parts : list string) (v : value) (current : value)
  : res value :=
  match parts with
  | [] => raise IndexError
  | [final_key] => assign_final final_key v current
  | part :: rest =>
      if array_notation part then
        '(base_key, index) <- base_and_index part ;;
        current <- setdefault current base_key (VList []) ;;
        seq <- py_getitem current (KStr base_key) ;;
        seq <- extend_to seq index (VDict []) ;;
        child <- py_getitem seq (KInt index) ;;
        child <- assign_path rest v child ;;
        seq <- py_setitem seq (KInt index) child ;;
        py_setitem current (KStr base_key) seq
      else
        current <- setdefault current part (VDict []) ;;
        child <- py_getitem current (KStr part) ;;
        child <- assign_path rest v child ;;
        py_setitem current (KStr part) child
  end.

(** Lines 69-80: the same walk in the files pass, which has no branch for
    the array notation. *)
Fixpoint assign_file_path (parts : list string) (v : value) (current : value)
  : res value :=
  match parts with
  | [] => raise IndexError
  | [final_key] => py_setitem current (KStr final_key) v
  | part :: rest =>
      current <- setdefault current part (VDict []) ;;
      child <- py_getitem current (KStr part) ;;
      child <- assign_file_path rest v child ;;
      py_setitem current (KStr part) child
  end.

(** [file_list[0]] when there is exactly one file, [file_list] otherwise. *)
Definition file_value (file_list : list UploadedFile) : value :=
  match file_list with
  | [f] => VFile f
  | _ => VList (map VFile file_list)
  end.

Section Decoder.

(** [django_unicorn.serializer.loads], which is not part of the sources
    at hand: [None] stands for [JSONDecodeError]. *)
Variable loads : string -> option value.

(** One iteration of the loop over [request.POST.items()]. *)
Definition post_field (data : value) (kv : string * string) : res value :=
  let '(key, value) := kv in
  if prefix "data." key then
    assign_path (split "." (drop 5 key)) (VStr value) data
  else if String.eqb key "actionQueue" then
    match loads value with
    | Some decoded => py_setitem data (KStr key) decoded
    | None => raise JSONDecodeError
    end
  else py_setitem data (KStr key) (VStr value).

(** One iteration of the loop over [request.FILES.lists()]. *)
Definition file_field (data : value) (kv : string * list UploadedFile)
  : res value :=
  let '(key, file_list) := kv in
  if prefix "data." key then
    assign_file_path (split "." (drop 5 key)) (file_value file_list) data
  else ret data.

(** A [for] loop whose body may raise. *)
Fixpoint for_each {A : Type} (step : value -> A -> res value)
         (items : list A) (data : value) : res value :=
  match items with
  | [] => ret data
  | x :: items' => data <- step data x ;; for_each step items' data
  end.

Definition parse_multipart_data (request : HttpRequest.t) : res value :=
  data <- for_each post_field (HttpRequest.POST request) (VDict []) ;;
  for_each file_field (HttpRequest.FILES request) data.

End Decoder.

(** ** Classified actions *)

(** Modelled from the spec: the classes of [django_unicorn.views.action]
    ([Action] and its subclasses [SyncInput], [CallMethod], [Refresh],
    [Reset], [Toggle]) are not part of the sources at hand; a classified
    action is a closed variant, each case carrying the original raw
    payload. *)
Inductive action : Type :=
| SyncInput (action_data : value)
| CallMethod (action_data : value)
| Refresh (action_data : value)
| Reset (action_data : value)
| Toggle (action_data : value)
| Action (action_data : value).

(** The raw payload a classified action was built from. *)
Definition raw_of (a : action) : value :=
  match a with
  | SyncInput d | CallMethod d | Refresh d | Reset d | Toggle d | Action d => d
  end.

(** ** [ComponentRequest] *)

Module ComponentRequest.

Record t : Type := mk {
  action_queue : list action;
  body : value;
  data : value;
  epoch : value;
  hash : value;
  id : value;
  key : value;
  name : value;
  request : HttpRequest.t
}.

(** [d.get(k, default)] on [request.META]. *)
Fixpoint meta_get (k : string) (default : string) (m : list (string * string))
  : string :=
  match m with
  | [] => default
  | (k', v) :: m' => if String.eqb k' k then v else meta_get k default m'
  end.

(** [except JSONDecodeError as e: raise UnicornViewError(...) from e];
    every other exception passes through. *)
Definition except_JSONDecodeError {A : Type} (m : res A) : res A :=
  match m with
  | inl JSONDecodeError => raise (UnicornViewError "Body could not be parsed")
  | _ => m
  end.

Section Init.

(** The collaborators imported from modules that are not part of the
    sources at hand. *)

(** [django_unicorn.serializer.loads]; [None] is [JSONDecodeError]. *)
Variable loads : string -> option value.

(** [django_unicorn.utils.generate_checksum]: the digest of the data, a
    string, or an exception of the function. *)
Variable generate_checksum : value -> res string.

(** [django_unicorn.call_method_parser.parse_call_method_name]: the
    method name, the arguments and the keyword arguments, or an
    exception of the parser. *)
Variable parse_call_method_name :
  value -> res (string * list value * list (pykey * value)).

(** Lines 173-188, with [self.body] and [self.data] as arguments. *)
Definition validate_checksum (body data : value) : res unit :=
  checksum <- py_get body "checksum" VNone ;;
  if negb (truthy checksum) then raise (AssertionError "Missing checksum")
  else
    generated_checksum <- generate_checksum data ;;
    if negb (eq_str checksum generated_checksum) then
      raise (AssertionError "Checksum does not match")
    else ret tt.

(** Lines 147-165: the body of the loop over the action queue. *)
Definition classify (action_data : value) : res action :=
  action_type <- py_get action_data "type" VNone ;;
  payload <- py_get action_data "payload" (VDict []) ;;
  if eq_str action_type "syncInput" then ret (SyncInput action_data)
  else if eq_str action_type "callMethod" then
    name <- py_get payload "name" (VStr "") ;;
    '(method_name, _, _) <- parse_call_method_name name ;;
    if String.eqb method_name "$refresh" then ret (Refresh action_data)
    else if String.eqb method_name "$reset" then ret (Reset action_data)
    else if String.eqb method_name "$toggle" then ret (Toggle action_data)
    else ret (CallMethod action_data)
  else ret (Action action_data).

(** [self.action_queue] grows by one [append] per raw entry. *)
Fixpoint classify_queue (action_queue : list action) (entries : list value)
  : res (list action) :=
  match entries with
  | [] => ret action_queue
  | action_data :: entries' =>
      a <- classify action_data ;;
      classify_queue (action_queue ++ [a]) entries'
  end.

(** Lines 144-165: the loop over [self.body.get("actionQueue", [])]. *)
Definition classify_actions (body : value) : res (list action) :=
  queue <- py_get body "actionQueue" (VList []) ;;
  entries <- py_iter queue ;;
  classify_queue [] entries.

(** Lines 107-108. *)
Definition is_multipart (request : HttpRequest.t) : bool :=
  let content_type := meta_get "CONTENT_TYPE" "" (HttpRequest.META request) in
  str_in "multipart/form-data" content_type.

(** Lines 111-116: the two decoding strategies. *)
Definition decode (request : HttpRequest.t) : res value :=
  if is_multipart request then parse_multipart_data loads request
  else match loads (HttpRequest.body request) with
       | Some v => ret v
       | None => raise JSONDecodeError
       end.

(** Lines 110-121: the [try] block and its handler. *)
Definition read_body (request : HttpRequest.t) : res value :=
  except_JSONDecodeError (
    body <- decode request ;;
    if negb (truthy body) then raise (AssertionError "Invalid body")
    else ret body).

(** [ComponentRequest.__init__]. *)
Definition init (request : HttpRequest.t) (component_name : value) : res t :=
  body <- read_body request ;;
  let name := component_name in
  if negb (truthy name) then raise (AssertionError "Missing component name")
  else
    data <- py_get body "data" VNone ;;
    if is_None data then raise (AssertionError "Missing data")
    else
      id <- py_get body "id" VNone ;;
      if negb (truthy id) then raise (AssertionError "Missing component id")
      else
        epoch <- py_get body "epoch" (VStr "") ;;
        if negb (truthy epoch) then raise (AssertionError "Missing epoch")
        else
          key <- py_get body "key" (VStr "") ;;
          hash <- py_get body "hash" (VStr "") ;;
          _ <- validate_checksum body data ;;
          action_queue <- classify_actions body ;;
          ret (mk action_queue body data epoch hash id key name request).

End Init.

End ComponentRequest.

(** ** The example component [FileUploadView]

    [example/unicorn/components/file_upload.py]: the attributes of the
    view and its two methods, as functions from the state of the view to
    the state after the call. *)
Module FileUploadView.

Record t : Type := mk {
  uploaded_file : option UploadedFile;
  file_name : string;
  file_size : Z;
  file_type : string;
  upload_message : string
}.

(** The class attributes, which a fresh view starts from. *)
Definition initial : t := mk None "" 0 "" "".

(** [x or default] on strings. *)
Definition or_default (x default : string) : string :=
  if String.eqb x "" then default else x.

(** [process_file]: the test [if self.uploaded_file] is the truth value
    of the file. *)
Definition process_file (self : t) : t :=
  let no_file :=
    mk (uploaded_file self) (file_name self) (file_size self) (file_type self)
       "No file uploaded" in
  match uploaded_file self with
  | Some f =>
      if truthy (VFile f) then
        let '(mkFile name size content_type _) := f in
        mk (uploaded_file self) name size (or_default content_type "unknown")
           ("Successfully processed " ++ name)%string
      else no_file
  | None => no_file
  end.

(** [clear_file]. *)
Definition clear_file (self : t) : t := mk None "" 0 "" "File cleared".

End FileUploadView.

(** * Properties *)

(** ** Sample collaborators and requests

    Concrete stand-ins for the three imported functions, used to run the
    model on explicit inputs. *)
Module Sample.

(** The double quote, and a quoted word. *)
Definition dq : string := String "034"%char EmptyString.
Definition quoted (s : string) : string := (dq ++ s ++ dq)%string.

(** A document with an empty [data] mapping and without a checksum. *)
Definition empty_data_text : string :=
  ("{" ++ quoted "data" ++ ": {}, " ++ quoted "id" ++ ": " ++ quoted "abc"
       ++ ", " ++ quoted "epoch" ++ ": " ++ quoted "17" ++ "}")%string.

Definition empty_data_fields : list (pykey * value) :=
  [(KStr "data", VDict []); (KStr "id", VStr "abc"); (KStr "epoch", VStr "17")].

(** A decoder that knows four documents and rejects every other text. *)
Definition loads (s : string) : option value :=
  if String.eqb s "{}" then Some (VDict [])
  else if String.eqb s "[]" then Some (VList [])
  else if String.eqb s "null" then Some VNone
  else if String.eqb s empty_data_text then Some (VDict empty_data_fields)
  else None.

(** A digest that depends on the data it is given. *)
Definition generate_checksum (v : value) : res string :=
  match v with
  | VStr s => ret ("sum:" ++ s)%string
  | _ => ret "sum"
  end.

(** A parser that takes the text before the first parenthesis as the
    method name and rejects the empty expression. *)
Definition parse_call_method_name (v : value)
  : res (string * list value * list (pykey * value)) :=
  match v with
  | VStr EmptyString => raise IndexError
  | VStr s =>
      match index_of "(" s with
      | Some i => ret (slice 0 i s, [], [])
      | None => ret (s, [], [])
      end
  | _ => raise TypeError
  end.

(** A multipart request with the given form fields and files. *)
Definition multipart (post : list (string * string))
           (files : list (string * list UploadedFile)) : HttpRequest.t :=
  HttpRequest.mk [("CONTENT_TYPE", "multipart/form-data; boundary=x")] "" post files.

(** A request whose body is structured text. *)
Definition json (text : string) : HttpRequest.t :=
  HttpRequest.mk [("CONTENT_TYPE", "application/json")] text [] [].

Definition new_request : HttpRequest.t -> value -> res ComponentRequest.t :=
  ComponentRequest.init loads generate_checksum parse_call_method_name.

Definition report : UploadedFile := mkFile "report.txt" 12 "text/plain" ["hello"].
Definition photo : UploadedFile := mkFile "photo.png" 2048 "image/png" [].

(** The form fields of a request that passes every check. *)
Definition accepted_fields : list (pykey * value) :=
  [(KStr "id", VStr "abc"); (KStr "epoch", VStr "17");
   (KStr "data", VStr "payload"); (KStr "checksum", VStr "sum:payload")].

Definition accepted : HttpRequest.t :=
  multipart [("id", "abc"); ("epoch", "17"); ("data", "payload");
             ("checksum", "sum:payload")] [].

(** The same fields with a checksum that is the digest followed by [x]. *)
Definition tampered_fields : list (pykey * value) :=
  [(KStr "id", VStr "abc"); (KStr "epoch", VStr "17");
   (KStr "data", VStr "payload"); (KStr "checksum", VStr "sum:payloadx")].

Definition tampered : HttpRequest.t :=
  multipart [("id", "abc"); ("epoch", "17"); ("data", "payload");
             ("checksum", "sum:payloadx")] [].

(** Three raw actions: a toggle call, an input synchronisation and an
    entry of an unknown type. *)
Definition toggle_entry : list (pykey * value) :=
  [(KStr "type", VStr "callMethod");
   (KStr "payload", VDict [(KStr "name", VStr "$toggle('show')")])].

Definition sync_entry : list (pykey * value) :=
  [(KStr "type", VStr "syncInput");
   (KStr "payload", VDict [(KStr "name", VStr "title"); (KStr "value", VStr "x")])].

Definition unknown_entry : list (pykey * value) :=
  [(KStr "type", VStr "unknownThing")].

Definition queue_fields : list (pykey * value) :=
  [(KStr "actionQueue",
    VList [VDict toggle_entry; VDict sync_entry; VDict unknown_entry])].

End Sample.

(** ** Vocabulary of the statements *)

(** A non-empty string of decimal digits, and the number it denotes. *)
Fixpoint all_digits (s : string) : bool :=
  match s with
  | EmptyString => true
  | String c s' => is_digit c && all_digits s'
  end.

Definition digits (s : string) : bool :=
  match s with
  | EmptyString => false
  | _ => all_digits s
  end.

Fixpoint decimal_from (acc : Z) (s : string) : Z :=
  match s with
  | EmptyString => acc
  | String c s' => decimal_from (10 * acc + digit_value c) s'
  end.

Definition decimal (s : string) : Z := decimal_from 0 s.

(** A name without brackets, and the segment [name[ds]]. *)
Definition bracket_free (s : string) : bool :=
  negb (has_char "[" s) && negb (has_char "]" s).

Definition indexed (name ds : string) : string :=
  (name ++ "[" ++ ds ++ "]")%string.

(** [old] extended with placeholders so that position [n] exists. *)
Definition zero_extend (old : list value) (n : nat) (ph : value) : list value :=
  old ++ repeat ph (n + 1 - List.length old).

(** The sequence bound to [name] in [d]: the empty one when [name] is
    not bound yet, none when [name] is bound to something else. *)
Definition bound_sequence (d : list (pykey * value)) (name : string)
  : option (list value) :=
  match dict_lookup (KStr name) d with
  | None => Some []
  | Some (VList old) => Some old
  | Some _ => None
  end.

(** The text between the first ["["] and the first ["]"] of a segment
    that has both. *)
Definition index_text (part : string) : option string :=
  match index_of "[" part, index_of "]" part with
  | Some i, Some j => Some (slice (i + 1) j part)
  | _, _ => None
  end.


(** A segment with both brackets whose index text [int] rejects. *)
Definition malformed_index (part : string) : Prop :=
  exists text, index_text part = Some text /\ py_int text = None.

(** ** Vocabulary of the further properties *)

(** Reading a path back: the walk of [assign_path] without the
    assignments. *)
Fixpoint read_path (parts : list string) (current : value) : res value :=
  match parts with
  | [] => ret current
  | part :: rest =>
      if array_notation part then
        '(base_key, index) <- base_and_index part ;;
        seq <- py_getitem current (KStr base_key) ;;
        child <- py_getitem seq (KInt index) ;;
        read_path rest child
      else
        child <- py_getitem current (KStr part) ;;
        read_path rest child
  end.

(** The top-level key a segment reads or binds. *)
Definition first_key (part : string) : string :=
  if array_notation part then
    match index_of "[" part with
    | Some i => slice 0 i part
    | None => part
    end
  else part.

(** The top-level key a form field binds. *)
Definition top_key (key : string) : string :=
  if prefix "data." key then first_key (hd "" (split "." (drop 5 key)))
  else key.

(** The top-level key a [data.] file field binds. *)
Definition file_top_key (key : string) : string :=
  hd "" (split "." (drop 5 key)).

(** The top-level keys the fields of a request bind. *)
Definition field_keys (request : HttpRequest.t) : list string :=
  map (fun kv => top_key (fst kv)) (HttpRequest.POST request) ++
  map (fun kv => file_top_key (fst kv))
      (filter (fun kv => prefix "data." (fst kv)) (HttpRequest.FILES request)).

(** [k in d]. *)
Definition bound (k : pykey) (d : list (pykey * value)) : Prop :=
  dict_lookup k d <> None.


(** The segment [name[-ds]], and a value that is not a mapping. *)
Definition neg_indexed (name ds : string) : string :=
  (name ++ "[-" ++ ds ++ "]")%string.

Definition is_mapping (v : value) : bool :=
  match v with
  | VDict _ => true
  | _ => false
  end.

(** A segment the walk can take: a plain key, or an indexed one whose
    index [int] accepts. *)
Definition walkable (part : string) : Prop :=
  array_notation part = false \/ exists b i, base_and_index part = inr (b, i).

(** The sample decoder extended with one document that is a sequence. *)
Definition loads_with_sequence (s : string) : option value :=
  if String.eqb s "[1]" then Some (VList [VInt 1]) else Sample.loads s.

(** A queue whose second entry is a string. *)
Definition broken_queue_fields : list (pykey * value) :=
  [(KStr "actionQueue",
    VList [VDict Sample.sync_entry; VStr "oops"; VDict Sample.unknown_entry])].

(** A form with a checksum that does not match and a queue whose only
    entry is a number, and the body it parses to. *)
Definition gated : HttpRequest.t :=
  Sample.multipart [("id", "abc"); ("epoch", "17"); ("data", "payload");
                    ("checksum", "forged"); ("actionQueue", "[1]")] [].

Definition gated_fields : list (pykey * value) :=
  [(KStr "id", VStr "abc"); (KStr "epoch", VStr "17");
   (KStr "data", VStr "payload"); (KStr "checksum", VStr "forged");
   (KStr "actionQueue", VList [VInt 1])].
Section Properties.

Variable loads : string -> option value.
Variable generate_checksum : value -> res string.
Variable parse_call_method_name :
  value -> res (string * list value * list (pykey * value)).

Abbreviation decode := (ComponentRequest.decode loads).
Abbreviation read_body := (ComponentRequest.read_body loads).
Abbreviation validate_checksum := (ComponentRequest.validate_checksum generate_checksum).
Abbreviation classify := (ComponentRequest.classify parse_call_method_name).
Abbreviation classify_queue := (ComponentRequest.classify_queue parse_call_method_name).
Abbreviation classify_actions := (ComponentRequest.classify_actions parse_call_method_name).
Abbreviation init :=
  (ComponentRequest.init loads generate_checksum parse_call_method_name).

(** What the constructor returns once the four required fields are in
    place: the checksum gate, then the classified queue. *)
Definition gate_then_classify (request : HttpRequest.t) (name : value)
           (d : list (pykey * value)) : res ComponentRequest.t :=
  let data := dict_get d "data" VNone in
  _ <- validate_checksum (VDict d) data ;;
  action_queue <- classify_actions (VDict d) ;;
  ret (ComponentRequest.mk action_queue (VDict d) data
         (dict_get d "epoch" (VStr "")) (dict_get d "hash" (VStr ""))
         (dict_get d "id" VNone) (dict_get d "key" (VStr "")) name request).

(** The classification the raw entry [entry] is given, in the words of
    the protocol: by its [type], and for a method call by the bare name
    the parser extracts from [payload.name]. *)
Inductive classified_as : value -> action -> Prop :=
| as_sync_input e :
    dict_get e "type" VNone = VStr "syncInput" ->
    classified_as (VDict e) (SyncInput (VDict e))
| as_refresh e p args kwargs :
    dict_get e "type" VNone = VStr "callMethod" ->
    dict_get e "payload" (VDict []) = VDict p ->
    parse_call_method_name (dict_get p "name" (VStr "")) = inr ("$refresh", args, kwargs) ->
    classified_as (VDict e) (Refresh (VDict e))
| as_reset e p args kwargs :
    dict_get e "type" VNone = VStr "callMethod" ->
    dict_get e "payload" (VDict []) = VDict p ->
    parse_call_method_name (dict_get p "name" (VStr "")) = inr ("$reset", args, kwargs) ->
    classified_as (VDict e) (Reset (VDict e))
| as_toggle e p args kwargs :
    dict_get e "type" VNone = VStr "callMethod" ->
    dict_get e "payload" (VDict []) = VDict p ->
    parse_call_method_name (dict_get p "name" (VStr "")) = inr ("$toggle", args, kwargs) ->
    classified_as (VDict e) (Toggle (VDict e))
| as_call_method e p method_name args kwargs :
    dict_get e "type" VNone = VStr "callMethod" ->
    dict_get e "payload" (VDict []) = VDict p ->
    parse_call_method_name (dict_get p "name" (VStr ""))
      = inr (method_name, args, kwargs) ->
    method_name <> "$refresh" -> method_name <> "$reset" ->
    method_name <> "$toggle" ->
    classified_as (VDict e) (CallMethod (VDict e))
| as_generic e :
    dict_get e "type" VNone <> VStr "syncInput" ->
    dict_get e "type" VNone <> VStr "callMethod" ->
    classified_as (VDict e) (Action (VDict e)).

(** A raw entry as the protocol sends it: a mapping; where its type is
    ["callMethod"], its payload (when present) is a mapping whose name
    the parser accepts. *)
Definition raw_action (entry : value) : Prop :=
  exists e,
    entry = VDict e /\
    (dict_get e "type" VNone = VStr "callMethod" ->
     exists p r,
       dict_get e "payload" (VDict []) = VDict p /\
       parse_call_method_name (dict_get p "name" (VStr "")) = inr r).

(** ** Basic facts *)

Lemma eq_str_true (v : value) (s : string) : eq_str v s = true <-> v = VStr s.
Proof.
  destruct v; simpl; split; intro H; try discriminate.
  - apply String.eqb_eq in H. now subst.
  - injection H as ->. apply String.eqb_refl.
Qed.

Lemma eq_str_false (v : value) (s : string) : eq_str v s = false <-> v <> VStr s.
Proof.
  rewrite <- eq_str_true. destruct (eq_str v s); split; intro H;
    try reflexivity; try discriminate; try congruence.
Qed.

Lemma append_length (s t : string) :
  String.length (s ++ t)%string = (String.length s + String.length t)%nat.
Proof. induction s as [|c s IH]; simpl; [reflexivity | now rewrite IH]. Qed.

Lemma append_one_neq (s : string) (c : ascii) :
  (s ++ String c EmptyString)%string <> s.
Proof.
  intro H. apply (f_equal String.length) in H.
  rewrite append_length in H. simpl in H. lia.
Qed.

Lemma dict_get_lookup d k default v :
  dict_lookup (KStr k) d = Some v -> dict_get d k default = v.
Proof. unfold dict_get. now intros ->. Qed.

Lemma dict_get_absent d k default :
  dict_lookup (KStr k) d = None -> dict_get d k default = default.
Proof. unfold dict_get. now intros ->. Qed.

(** ** Strings, integers and the path walk *)

Lemma has_char_app c a b : has_char c (a ++ b)%string = has_char c a || has_char c b.
Proof.
  induction a as [|x a IH]; simpl; [reflexivity|].
  now rewrite IH, orb_assoc.
Qed.

Lemma index_of_app c a b :
  has_char c a = false ->
  index_of c (a ++ b)%string = option_map (Nat.add (String.length a)) (index_of c b).
Proof.
  induction a as [|x a IH]; simpl; intro H.
  - now destruct (index_of c b).
  - apply orb_false_iff in H as [Hx Ha]. rewrite Hx, (IH Ha).
    now destruct (index_of c b).
Qed.

Lemma substring_prefix a b : substring 0 (String.length a) (a ++ b)%string = a.
Proof. induction a as [|x a IH]; simpl; [now destruct b | now rewrite IH]. Qed.

Lemma substring_skip a b k m :
  substring (String.length a + k) m (a ++ b)%string = substring k m b.
Proof. induction a as [|x a IH]; simpl; [reflexivity | exact IH]. Qed.

Lemma is_digit_not_space c : is_digit c = true -> is_space c = false.
Proof.
  unfold is_digit, is_space. intro H.
  apply andb_true_iff in H as [H1 H2].
  apply Nat.leb_le in H1, H2.
  repeat rewrite orb_false_iff. repeat split.
  - apply andb_false_iff. right. apply Nat.leb_gt. lia.
  - apply Nat.eqb_neq. lia.
  - apply Nat.eqb_neq. lia.
  - apply Nat.eqb_neq. lia.
Qed.

Lemma rstrip_all_digits s : all_digits s = true -> rstrip s = s.
Proof.
  induction s as [|c s IH]; simpl; [reflexivity|]. intro H.
  apply andb_true_iff in H as [Hc Hs]. rewrite (IH Hs).
  destruct s; [|reflexivity]. now rewrite (is_digit_not_space c Hc).
Qed.

Lemma lstrip_digits s : digits s = true -> lstrip s = s.
Proof.
  destruct s as [|c s]; simpl; [reflexivity|]. intro H.
  apply andb_true_iff in H as [Hc _]. now rewrite (is_digit_not_space c Hc).
Qed.

Lemma scan_all_digits s :
  all_digits s = true -> forall acc, scan_digits false acc s = Some (decimal_from acc s).
Proof.
  induction s as [|c s IH]; simpl; intros H acc; [reflexivity|].
  apply andb_true_iff in H as [Hc Hs]. rewrite Hc. now apply IH.
Qed.

Lemma py_int_unsigned c s :
  is_digit c = true -> rstrip (lstrip (String c s)) = String c s ->
  py_int (String c s) = unsigned_int (String c s).
Proof.
  intros Hc E. unfold py_int. rewrite E.
  destruct c as [[] [] [] [] [] [] [] []]; try reflexivity; discriminate Hc.
Qed.

Lemma py_int_digits s : digits s = true -> py_int s = Some (decimal s).
Proof.
  intro H. destruct s as [|c s]; [discriminate|].
  assert (Hall : all_digits (String c s) = true) by exact H.
  assert (Hc : is_digit c = true) by (simpl in H; now apply andb_true_iff in H as [? _]).
  rewrite py_int_unsigned; [|assumption|].
  - unfold unsigned_int. rewrite Hc. now apply scan_all_digits.
  - rewrite (lstrip_digits _ H). now apply rstrip_all_digits.
Qed.

Lemma decimal_from_nonneg s : forall acc, (0 <= acc)%Z -> (0 <= decimal_from acc s)%Z.
Proof.
  induction s as [|c s IH]; cbn [decimal_from]; intros acc H; [assumption|].
  apply IH. unfold digit_value. lia.
Qed.

Lemma all_digits_no_char c s :
  is_digit c = false -> all_digits s = true -> has_char c s = false.
Proof.
  intro Hc. induction s as [|x s IH]; simpl; [reflexivity|]. intro H.
  apply andb_true_iff in H as [Hx Hs]. rewrite (IH Hs), orb_false_r.
  destruct (Ascii.eqb_spec x c) as [->|]; [congruence | reflexivity].
Qed.

Lemma array_notation_indexed name ds : array_notation (indexed name ds) = true.
Proof.
  unfold array_notation, indexed. rewrite !has_char_app. simpl.
  now rewrite !orb_true_r.
Qed.

Lemma base_and_index_indexed name ds :
  bracket_free name = true -> digits ds = true ->
  base_and_index (indexed name ds) = inr (name, decimal ds).
Proof.
  unfold bracket_free. intros Hn Hd.
  apply andb_true_iff in Hn as [Ho Hc]. apply negb_true_iff in Ho, Hc.
  assert (Hall : all_digits ds = true) by (destruct ds; [discriminate | exact Hd]).
  unfold base_and_index, indexed.
  rewrite (index_of_app "[" name _ Ho), (index_of_app "]" name _ Hc). simpl.
  rewrite (index_of_app "]" ds "]"); [|now apply all_digits_no_char]. simpl.
  unfold slice.
  replace (String.length name + 0 - 0)%nat with (String.length name) by lia.
  replace (String.length name + S (String.length ds + 0) - (String.length name + 0 + 1))%nat
    with (String.length ds) by lia.
  replace (String.length name + 0 + 1)%nat with (String.length name + 1)%nat by lia.
  rewrite substring_prefix, substring_skip. simpl.
  rewrite substring_prefix, (py_int_digits ds Hd). reflexivity.
Qed.

Lemma pykey_eqb_refl k : pykey_eqb k k = true.
Proof. destruct k; simpl; [apply String.eqb_refl | apply Z.eqb_refl]. Qed.

Lemma dict_lookup_set_same k v d : dict_lookup k (dict_set k v d) = Some v.
Proof.
  induction d as [|[k' v'] d IH]; simpl.
  - now rewrite pykey_eqb_refl.
  - destruct (pykey_eqb k' k) eqn:E; simpl; now rewrite E.
Qed.

Lemma dict_set_set k v1 v2 d : dict_set k v2 (dict_set k v1 d) = dict_set k v2 d.
Proof.
  induction d as [|[k' v'] d IH]; simpl.
  - now rewrite pykey_eqb_refl.
  - destruct (pykey_eqb k' k) eqn:E; simpl; rewrite E; [reflexivity | now rewrite IH].
Qed.

Lemma zero_extend_length old n ph :
  List.length (zero_extend old n ph) = Nat.max (List.length old) (n + 1).
Proof. unfold zero_extend. rewrite length_app, repeat_length. lia. Qed.

Lemma extend_to_list old idx ph :
  (0 <= idx)%Z ->
  extend_to (VList old) idx ph = inr (VList (zero_extend old (Z.to_nat idx) ph)).
Proof.
  intro H. unfold extend_to, zero_extend. cbn [py_len bind ret].
  destruct (Z.leb_spec (Z.of_nat (List.length old)) idx) as [Hle|Hgt].
  - unfold ret. do 4 f_equal. lia.
  - replace (Z.to_nat idx + 1 - List.length old)%nat with 0%nat by lia.
    simpl. now rewrite app_nil_r.
Qed.

Lemma position_in_range len idx :
  (0 <= idx < Z.of_nat len)%Z -> position len idx = Some (Z.to_nat idx).
Proof.
  intros [H0 H1]. unfold position.
  destruct (Z.ltb_spec idx 0) as [?|_]; [lia|].
  destruct (Z.leb_spec 0 idx) as [_|?]; [|lia].
  destruct (Z.ltb_spec idx (Z.of_nat len)) as [_|?]; [|lia]. reflexivity.
Qed.

Lemma setdefault_sequence d name old :
  bound_sequence d name = Some old ->
  exists d',
    setdefault (VDict d) name (VList []) = inr (VDict d') /\
    dict_lookup (KStr name) d' = Some (VList old) /\
    forall x, dict_set (KStr name) x d' = dict_set (KStr name) x d.
Proof.
  unfold bound_sequence, setdefault. simpl.
  destruct (dict_lookup (KStr name) d) as [x|] eqn:E; simpl.
  - destruct x; try discriminate. intro H. injection H as <-.
    exists d. now repeat split.
  - intro H. injection H as <-. exists (dict_set (KStr name) (VList []) d).
    repeat split.
    + apply dict_lookup_set_same.
    + intro x. apply dict_set_set.
Qed.

Lemma assign_final_indexed name ds v d old :
  bracket_free name = true -> digits ds = true ->
  bound_sequence d name = Some old ->
  assign_final (indexed name ds) v (VDict d)
  = inr (VDict (dict_set (KStr name)
                  (VList (list_set (Z.to_nat (decimal ds)) v
                            (zero_extend old (Z.to_nat (decimal ds)) VNone))) d)).
Proof.
  intros Hn Hd Hb. unfold assign_final.
  rewrite array_notation_indexed, (base_and_index_indexed name ds Hn Hd).
  cbn [bind].
  destruct (setdefault_sequence d name old Hb) as (d' & Hs & Hl & Hset).
  rewrite Hs. cbn [bind]. cbn [py_getitem]. rewrite Hl. cbn [ret bind].
  assert (H0 : (0 <= decimal ds)%Z) by (apply decimal_from_nonneg; lia).
  rewrite (extend_to_list old _ VNone H0). cbn [bind py_setitem].
  rewrite position_in_range.
  - cbn [ret bind]. now rewrite Hset.
  - rewrite zero_extend_length. lia.
Qed.

Lemma list_set_length n v l : List.length (list_set n v l) = List.length l.
Proof.
  revert n. induction l as [|x l IH]; intros [|n]; simpl; try reflexivity.
  now rewrite IH.
Qed.

Lemma list_set_same n v l :
  (n < List.length l)%nat -> nth_error (list_set n v l) n = Some v.
Proof.
  revert n. induction l as [|x l IH]; intros [|n]; simpl; intro H; try lia.
  - reflexivity.
  - apply IH. lia.
Qed.

Lemma list_set_other n v l i :
  i <> n -> nth_error (list_set n v l) i = nth_error l i.
Proof.
  revert n i. induction l as [|x l IH]; intros [|n] [|i] H; simpl;
    try reflexivity; try contradiction.
  apply IH. lia.
Qed.

Lemma zero_extend_old old n ph i :
  (i < List.length old)%nat -> nth_error (zero_extend old n ph) i = nth_error old i.
Proof. intro H. unfold zero_extend. now rewrite nth_error_app1. Qed.

Lemma zero_extend_new old n ph i :
  (List.length old <= i <= n)%nat -> nth_error (zero_extend old n ph) i = Some ph.
Proof.
  intro H. unfold zero_extend. rewrite nth_error_app2 by lia.
  apply nth_error_repeat. lia.
Qed.

Lemma zero_extend_target old n ph :
  nth_error (zero_extend old n ph) n = Some (nth n old ph).
Proof.
  destruct (Nat.lt_ge_cases n (List.length old)) as [H|H].
  - rewrite zero_extend_old by assumption. now apply nth_error_nth'.
  - rewrite zero_extend_new by lia. now rewrite nth_overflow.
Qed.

Lemma assign_path_step part next rest v current :
  assign_path (part :: next :: rest) v current =
  if array_notation part then
    bind (base_and_index part) (fun x =>
      let '(base_key, index) := x in
      current <- setdefault current base_key (VList []) ;;
      seq <- py_getitem current (KStr base_key) ;;
      seq <- extend_to seq index (VDict []) ;;
      child <- py_getitem seq (KInt index) ;;
      child <- assign_path (next :: rest) v child ;;
      seq <- py_setitem seq (KInt index) child ;;
      py_setitem current (KStr base_key) seq)
  else
    current <- setdefault current part (VDict []) ;;
    child <- py_getitem current (KStr part) ;;
    child <- assign_path (next :: rest) v child ;;
    py_setitem current (KStr part) child.
Proof. reflexivity. Qed.

Lemma assign_file_path_step part next rest v current :
  assign_file_path (part :: next :: rest) v current =
  (current <- setdefault current part (VDict []) ;;
   child <- py_getitem current (KStr part) ;;
   child <- assign_file_path (next :: rest) v child ;;
   py_setitem current (KStr part) child).
Proof. reflexivity. Qed.

Lemma assign_path_indexed name ds next rest v d old :
  bracket_free name = true -> digits ds = true ->
  bound_sequence d name = Some old ->
  assign_path (indexed name ds :: next :: rest) v (VDict d)
  = bind (assign_path (next :: rest) v (nth (Z.to_nat (decimal ds)) old (VDict [])))
      (fun child =>
         inr (VDict (dict_set (KStr name)
                       (VList (list_set (Z.to_nat (decimal ds)) child
                                 (zero_extend old (Z.to_nat (decimal ds)) (VDict []))))
                       d))).
Proof.
  intros Hn Hd Hb. rewrite assign_path_step.
  rewrite array_notation_indexed, (base_and_index_indexed name ds Hn Hd).
  cbn [bind].
  destruct (setdefault_sequence d name old Hb) as (d' & Hs & Hl & Hset).
  rewrite Hs. cbn [bind]. cbn [py_getitem]. rewrite Hl. cbn [ret bind].
  assert (H0 : (0 <= decimal ds)%Z) by (apply decimal_from_nonneg; lia).
  rewrite (extend_to_list old _ (VDict []) H0). cbn [bind py_getitem].
  rewrite position_in_range by (rewrite zero_extend_length; lia).
  rewrite zero_extend_target. cbn [ret bind].
  destruct (assign_path (next :: rest) v (nth (Z.to_nat (decimal ds)) old (VDict [])))
    as [e|child]; [reflexivity|].
  cbn [bind py_setitem].
  rewrite position_in_range by (rewrite zero_extend_length; lia).
  cbn [ret bind]. now rewrite Hset.
Qed.

Lemma split_plain sep s : has_char sep s = false -> split sep s = [s].
Proof.
  induction s as [|c s IH]; simpl; [reflexivity|]. intro H.
  apply orb_false_iff in H as [Hc Hs]. rewrite Hc, (IH Hs). reflexivity.
Qed.

Lemma for_each_app {A : Type} (step : value -> A -> res value) xs ys data :
  for_each step (xs ++ ys) data = bind (for_each step xs data) (for_each step ys).
Proof.
  revert data. induction xs as [|x xs IH]; intro data; simpl; [reflexivity|].
  destruct (step data x) as [e|data']; simpl; [reflexivity | apply IH].
Qed.

Lemma has_char_index_of c s : has_char c s = true <-> index_of c s <> None.
Proof.
  induction s as [|x s IH]; simpl.
  - split; [discriminate | congruence].
  - destruct (Ascii.eqb x c); simpl.
    + split; [discriminate | reflexivity].
    + rewrite IH. destruct (index_of c s); split; congruence.
Qed.

Lemma assign_file_path_plain parts v current :
  Forall (fun part => array_notation part = false) parts ->
  assign_file_path parts v current = assign_path parts v current.
Proof.
  intro H. revert current. induction H as [|part rest Hp _ IH]; intro current.
  - reflexivity.
  - destruct rest as [|next rest].
    + simpl. unfold assign_final. now rewrite Hp.
    + rewrite assign_path_step, assign_file_path_step, Hp.
      destruct (setdefault current part (VDict [])) as [e|c]; [reflexivity|].
      cbn [bind]. destruct (py_getitem c (KStr part)) as [e|child]; [reflexivity|].
      cbn [bind]. now rewrite IH.
Qed.





Lemma py_int_by_sign text :
  py_int text =
  match rstrip (lstrip text) with
  | String a s =>
      if Ascii.eqb a "+" then unsigned_int s
      else if Ascii.eqb a "-" then option_map Z.opp (unsigned_int s)
      else unsigned_int (String a s)
  | EmptyString => None
  end.
Proof.
  unfold py_int. destruct (rstrip (lstrip text)) as [|a s]; [reflexivity|].
  destruct a as [[] [] [] [] [] [] [] []]; reflexivity.
Qed.


(** ** The constructor on a decoded dictionary *)

Lemma init_read_error request name e :
  read_body request = inl e -> init request name = inl e.
Proof. intro H. unfold ComponentRequest.init. now rewrite H. Qed.

Lemma init_missing_name request name body :
  read_body request = inr body -> truthy name = false ->
  init request name = inl (AssertionError "Missing component name").
Proof.
  intros H Hn. unfold ComponentRequest.init. rewrite H. simpl. now rewrite Hn.
Qed.

Lemma init_missing_data request name d :
  read_body request = inr (VDict d) -> truthy name = true ->
  is_None (dict_get d "data" VNone) = true ->
  init request name = inl (AssertionError "Missing data").
Proof.
  intros H Hn Hd. unfold ComponentRequest.init. rewrite H. simpl.
  rewrite Hn. simpl. now rewrite Hd.
Qed.

Lemma init_missing_id request name d :
  read_body request = inr (VDict d) -> truthy name = true ->
  is_None (dict_get d "data" VNone) = false ->
  truthy (dict_get d "id" VNone) = false ->
  init request name = inl (AssertionError "Missing component id").
Proof.
  intros H Hn Hd Hi. unfold ComponentRequest.init. rewrite H. simpl.
  rewrite Hn. simpl. rewrite Hd. simpl. now rewrite Hi.
Qed.

Lemma init_missing_epoch request name d :
  read_body request = inr (VDict d) -> truthy name = true ->
  is_None (dict_get d "data" VNone) = false ->
  truthy (dict_get d "id" VNone) = true ->
  truthy (dict_get d "epoch" (VStr "")) = false ->
  init request name = inl (AssertionError "Missing epoch").
Proof.
  intros H Hn Hd Hi He. unfold ComponentRequest.init. rewrite H. simpl.
  rewrite Hn. simpl. rewrite Hd. simpl. rewrite Hi. simpl. now rewrite He.
Qed.

Lemma init_fields_present request name d :
  read_body request = inr (VDict d) -> truthy name = true ->
  is_None (dict_get d "data" VNone) = false ->
  truthy (dict_get d "id" VNone) = true ->
  truthy (dict_get d "epoch" (VStr "")) = true ->
  init request name = gate_then_classify request name d.
Proof.
  intros H Hn Hd Hi He. unfold ComponentRequest.init, gate_then_classify.
  rewrite H. simpl. rewrite Hn. simpl. rewrite Hd. simpl. rewrite Hi. simpl.
  rewrite He. reflexivity.
Qed.

Lemma validate_checksum_missing d data :
  truthy (dict_get d "checksum" VNone) = false ->
  validate_checksum (VDict d) data = inl (AssertionError "Missing checksum").
Proof.
  intro H. unfold ComponentRequest.validate_checksum. simpl. now rewrite H.
Qed.

Lemma validate_checksum_differs d data digest :
  generate_checksum data = inr digest ->
  truthy (dict_get d "checksum" VNone) = true ->
  dict_get d "checksum" VNone <> VStr digest ->
  validate_checksum (VDict d) data = inl (AssertionError "Checksum does not match").
Proof.
  intros Hg H Hd. unfold ComponentRequest.validate_checksum. simpl.
  rewrite H. simpl. rewrite Hg. simpl.
  apply eq_str_false in Hd. now rewrite Hd.
Qed.

Lemma validate_checksum_equal d data digest :
  generate_checksum data = inr digest ->
  dict_get d "checksum" VNone = VStr digest ->
  digest <> "" ->
  validate_checksum (VDict d) data = inr tt.
Proof.
  intros Hg H Hne. unfold ComponentRequest.validate_checksum. simpl. rewrite H.
  cbn [truthy]. apply String.eqb_neq in Hne. rewrite Hne.
  cbn [negb]. rewrite Hg. cbn [bind eq_str]. now rewrite String.eqb_refl.
Qed.

(** The gate passes exactly on a truthy checksum equal to the digest. *)
Lemma validate_checksum_ok_iff body data :
  validate_checksum body data = inr tt <->
  exists d digest,
    body = VDict d /\
    truthy (dict_get d "checksum" VNone) = true /\
    generate_checksum data = inr digest /\
    dict_get d "checksum" VNone = VStr digest.
Proof.
  unfold ComponentRequest.validate_checksum. split.
  - destruct body; simpl; try discriminate. intro H.
    destruct (truthy (dict_get d "checksum" VNone)) eqn:Ht; simpl in H; [|discriminate].
    destruct (generate_checksum data) as [e|digest] eqn:Hg; simpl in H; [discriminate|].
    destruct (eq_str (dict_get d "checksum" VNone) digest) eqn:E;
      simpl in H; [|discriminate].
    exists d, digest. split; [reflexivity|]. split; [exact Ht|].
    split; [reflexivity|]. now apply eq_str_true.
  - intros (d & digest & -> & Ht & Hg & He). simpl. rewrite Ht. simpl.
    rewrite Hg. simpl. apply eq_str_true in He. now rewrite He.
Qed.

Lemma read_body_decode_error request :
  decode request = inl JSONDecodeError ->
  read_body request = inl (UnicornViewError "Body could not be parsed").
Proof. intro H. unfold ComponentRequest.read_body. now rewrite H. Qed.

Lemma read_body_empty request v :
  decode request = inr v -> truthy v = false ->
  read_body request = inl (AssertionError "Invalid body").
Proof.
  intros H Hv. unfold ComponentRequest.read_body. rewrite H. simpl. now rewrite Hv.
Qed.

(** A constructed request went through every check, in particular the
    checksum gate, and its queue is the classification of its body. *)
Lemma init_inversion request name cr :
  init request name = inr cr ->
  read_body request = inr (ComponentRequest.body cr) /\
  py_get (ComponentRequest.body cr) "data" VNone = inr (ComponentRequest.data cr) /\
  validate_checksum (ComponentRequest.body cr) (ComponentRequest.data cr) = inr tt /\
  classify_actions (ComponentRequest.body cr) = inr (ComponentRequest.action_queue cr).
Proof.
  unfold ComponentRequest.init.
  destruct (read_body request) as [e|b] eqn:Hb; simpl; [discriminate|].
  destruct (truthy name); simpl; [|discriminate].
  destruct (py_get b "data" VNone) as [e|dat] eqn:Hd; simpl; [discriminate|].
  destruct (is_None dat); [discriminate|].
  destruct (py_get b "id" VNone) as [e|i]; simpl; [discriminate|].
  destruct (truthy i); simpl; [|discriminate].
  destruct (py_get b "epoch" (VStr "")) as [e|ep]; simpl; [discriminate|].
  destruct (truthy ep); simpl; [|discriminate].
  destruct (py_get b "key" (VStr "")) as [e|k]; simpl; [discriminate|].
  destruct (py_get b "hash" (VStr "")) as [e|h]; simpl; [discriminate|].
  destruct (validate_checksum b dat) as [e|[]] eqn:Hv; simpl; [discriminate|].
  destruct (classify_actions b) as [e|q] eqn:Hq; simpl; [discriminate|].
  intro H. injection H as <-. simpl. repeat split; assumption.
Qed.

(** When the gate does not pass, the outcome is an exception that does
    not depend on the method-name parser. *)
Lemma init_gate_closed request name :
  (forall b dat, read_body request = inr b -> py_get b "data" VNone = inr dat ->
                 validate_checksum b dat <> inr tt) ->
  exists e, forall parser,
      ComponentRequest.init loads generate_checksum parser request name = inl e.
Proof.
  intro Hgate. unfold ComponentRequest.init.
  destruct (read_body request) as [e|b]; simpl; [now exists e|].
  destruct (truthy name); simpl; [|now eexists].
  destruct (py_get b "data" VNone) as [e|dat] eqn:Hd; simpl; [now exists e|].
  destruct (is_None dat); [now eexists|].
  destruct (py_get b "id" VNone) as [e|i]; simpl; [now exists e|].
  destruct (truthy i); simpl; [|now eexists].
  destruct (py_get b "epoch" (VStr "")) as [e|ep]; simpl; [now exists e|].
  destruct (truthy ep); simpl; [|now eexists].
  destruct (py_get b "key" (VStr "")) as [e|k]; simpl; [now exists e|].
  destruct (py_get b "hash" (VStr "")) as [e|h]; simpl; [now exists e|].
  specialize (Hgate b dat eq_refl Hd).
  destruct (validate_checksum b dat) as [e|[]]; simpl; [now exists e|].
  now contradiction Hgate.
Qed.

Lemma classify_actions_no_queue d :
  dict_lookup (KStr "actionQueue") d = None ->
  classify_actions (VDict d) = inr [].
Proof.
  intro H. unfold ComponentRequest.classify_actions. simpl.
  rewrite (dict_get_absent _ _ _ H). reflexivity.
Qed.

Lemma truthy_append_one (s : string) (c : ascii) :
  truthy (VStr (s ++ String c EmptyString)%string) = true.
Proof. destruct s; reflexivity. Qed.

(** C1.  [validate_checksum] raises [AssertionError("Missing checksum")]
    when the checksum is absent, empty or otherwise falsy.  With [digest]
    the digest of [data], it passes on a checksum equal to the
    (non-empty) digest, and raises
    [AssertionError("Checksum does not match")] on a truthy checksum that
    differs from the digest, for instance the digest followed by ["x"].
    Once the body is decoded and the four required fields are in place,
    the constructor raises what [validate_checksum] raises and, when it
    passes, goes on to classify the action queue. *)
Theorem checksum_gate_outcomes :
  forall d data,
    let supplied := dict_get d "checksum" VNone in
    (dict_lookup (KStr "checksum") d = None ->
     validate_checksum (VDict d) data = inl (AssertionError "Missing checksum")) /\
    (supplied = VStr "" ->
     validate_checksum (VDict d) data = inl (AssertionError "Missing checksum")) /\
    (truthy supplied = false ->
     validate_checksum (VDict d) data = inl (AssertionError "Missing checksum")) /\
    (forall digest, generate_checksum data = inr digest ->
       (supplied = VStr digest -> digest <> "" ->
        validate_checksum (VDict d) data = inr tt) /\
       (truthy supplied = true -> supplied <> VStr digest ->
        validate_checksum (VDict d) data
        = inl (AssertionError "Checksum does not match")) /\
       (supplied = VStr (digest ++ "x")%string ->
        validate_checksum (VDict d) data
        = inl (AssertionError "Checksum does not match"))) /\
    (forall request name,
       read_body request = inr (VDict d) ->
       truthy name = true ->
       data = dict_get d "data" VNone ->
       is_None data = false ->
       truthy (dict_get d "id" VNone) = true ->
       truthy (dict_get d "epoch" (VStr "")) = true ->
       (forall e, validate_checksum (VDict d) data = inl e ->
                  init request name = inl e) /\
       (validate_checksum (VDict d) data = inr tt ->
        init request name =
          (action_queue <- classify_actions (VDict d) ;;
           ret (ComponentRequest.mk action_queue (VDict d) data
                  (dict_get d "epoch" (VStr "")) (dict_get d "hash" (VStr ""))
                  (dict_get d "id" VNone) (dict_get d "key" (VStr ""))
                  name request)))).
Proof.
  intros d data supplied. split; [|split; [|split; [|split]]].
  - intro H. apply validate_checksum_missing.
    now rewrite (dict_get_absent _ _ _ H).
  - intro H. apply validate_checksum_missing. fold supplied. now rewrite H.
  - apply validate_checksum_missing.
  - intros digest Hg. split; [|split].
    + intros H Hne. now apply validate_checksum_equal with digest.
    + now apply validate_checksum_differs.
    + intro H. apply validate_checksum_differs with digest;
        [assumption| |]; fold supplied; rewrite H.
      * apply truthy_append_one.
      * intro E. injection E as E. exact (append_one_neq _ _ E).
  - intros request name Hb Hn -> Hd Hi He. split.
    + intros e Hv.
      rewrite (init_fields_present request name d) by assumption.
      unfold gate_then_classify. now rewrite Hv.
    + intro Hv.
      rewrite (init_fields_present request name d) by assumption.
      unfold gate_then_classify. now rewrite Hv.
Qed.

(** C2.  The constructor reports the first failing check in the order
    body decoding, component name, [data], [id], [epoch], checksum: a
    failure of an earlier check is reported whatever the later fields
    hold.  In particular a body that has [data] but neither [id] nor
    [epoch] gets the missing-id error. *)
Theorem validation_order :
  forall request name,
    (forall e, read_body request = inl e -> init request name = inl e) /\
    (forall body, read_body request = inr body -> truthy name = false ->
       init request name = inl (AssertionError "Missing component name")) /\
    (forall d, read_body request = inr (VDict d) -> truthy name = true ->
       let data := dict_get d "data" VNone in
       let id := dict_get d "id" VNone in
       let epoch := dict_get d "epoch" (VStr "") in
       (is_None data = true ->
        init request name = inl (AssertionError "Missing data")) /\
       (is_None data = false -> truthy id = false ->
        init request name = inl (AssertionError "Missing component id")) /\
       (is_None data = false -> truthy id = true -> truthy epoch = false ->
        init request name = inl (AssertionError "Missing epoch")) /\
       (is_None data = false -> truthy id = true -> truthy epoch = true ->
        forall e, validate_checksum (VDict d) data = inl e ->
                  init request name = inl e) /\
       (is_None data = false ->
        dict_lookup (KStr "id") d = None -> dict_lookup (KStr "epoch") d = None ->
        init request name = inl (AssertionError "Missing component id"))).
Proof.
  intros request name. split; [|split].
  - intros e H. now apply init_read_error.
  - intros b H Hn. now apply init_missing_name with b.
  - intros d Hb Hn data id epoch. repeat split.
    + now apply init_missing_data.
    + now apply init_missing_id.
    + now apply init_missing_epoch.
    + intros Hd Hi He e Hv.
      rewrite (init_fields_present request name d Hb Hn Hd Hi He).
      unfold gate_then_classify. fold data. now rewrite Hv.
    + intros Hd Hid _. apply init_missing_id with d; try assumption.
      now rewrite (dict_get_absent _ _ _ Hid).
Qed.

(** C6, as the code has it.  A body that fails structured-text decoding
    raises [UnicornViewError("Body could not be parsed")]; an empty
    decoded body raises [AssertionError("Invalid body")]; the absence of
    a required field raises an [AssertionError] whose message names the
    field.  So the missing-field errors differ in class from the decoding
    error, and from the empty-body error in their message only. *)
Theorem error_classes :
  forall request name,
    (decode request = inl JSONDecodeError ->
     init request name = inl (UnicornViewError "Body could not be parsed")) /\
    (forall v, decode request = inr v -> truthy v = false ->
       init request name = inl (AssertionError "Invalid body")) /\
    (forall d, read_body request = inr (VDict d) ->
       truthy name = false \/
       is_None (dict_get d "data" VNone) = true \/
       truthy (dict_get d "id" VNone) = false \/
       truthy (dict_get d "epoch" (VStr "")) = false ->
       exists msg,
         init request name = inl (AssertionError msg) /\
         In msg ["Missing component name"; "Missing data";
                 "Missing component id"; "Missing epoch"] /\
         msg <> "Invalid body" /\
         class_of (AssertionError msg)
           <> class_of (UnicornViewError "Body could not be parsed") /\
         class_of (AssertionError msg) = class_of (AssertionError "Invalid body")).
Proof.
  intros request name. split; [|split].
  - intro H. apply init_read_error. now apply read_body_decode_error.
  - intros v H Hv. apply init_read_error. now apply read_body_empty with v.
  - intros d Hb Hmissing.
    assert (Hmsg : forall msg,
               In msg ["Missing component name"; "Missing data";
                       "Missing component id"; "Missing epoch"] ->
               msg <> "Invalid body").
    { intros msg Hin. simpl in Hin.
      destruct Hin as [<-|[<-|[<-|[<-|[]]]]]; discriminate. }
    assert (Hall : forall msg,
               init request name = inl (AssertionError msg) ->
               In msg ["Missing component name"; "Missing data";
                       "Missing component id"; "Missing epoch"] ->
               exists msg,
                 init request name = inl (AssertionError msg) /\
                 In msg ["Missing component name"; "Missing data";
                         "Missing component id"; "Missing epoch"] /\
                 msg <> "Invalid body" /\
                 class_of (AssertionError msg)
                   <> class_of (UnicornViewError "Body could not be parsed") /\
                 class_of (AssertionError msg) = class_of (AssertionError "Invalid body")).
    { intros msg Hi Hin. exists msg. repeat split; try assumption.
      - now apply Hmsg.
      - discriminate. }
    destruct (truthy name) eqn:Hn.
    2:{ apply Hall with "Missing component name".
        - now apply init_missing_name with (VDict d).
        - simpl; tauto. }
    destruct (is_None (dict_get d "data" VNone)) eqn:Hd.
    { apply Hall with "Missing data".
      - now apply init_missing_data with d.
      - simpl; tauto. }
    destruct (truthy (dict_get d "id" VNone)) eqn:Hi.
    2:{ apply Hall with "Missing component id".
        - now apply init_missing_id with d.
        - simpl; tauto. }
    destruct (truthy (dict_get d "epoch" (VStr ""))) eqn:He.
    2:{ apply Hall with "Missing epoch".
        - now apply init_missing_epoch with d.
        - simpl; tauto. }
    exfalso. destruct Hmissing as [H|[H|[H|H]]]; discriminate.
Qed.

Lemma validate_checksum_same_fields d d' data :
  dict_lookup (KStr "checksum") d = dict_lookup (KStr "checksum") d' ->
  validate_checksum (VDict d) data = validate_checksum (VDict d') data.
Proof.
  intro H. unfold ComponentRequest.validate_checksum, py_get, dict_get.
  now rewrite H.
Qed.

(** Below the gate the constructor reads the body at four keys only. *)
Lemma init_without_queue request request' name d d' :
  read_body request = inr (VDict d) ->
  ComponentRequest.read_body loads request' = inr (VDict d') ->
  (forall k, k <> "actionQueue" ->
             dict_lookup (KStr k) d = dict_lookup (KStr k) d') ->
  validate_checksum (VDict d) (dict_get d "data" VNone) <> inr tt ->
  exists e,
    init request name = inl e /\
    forall parser,
      ComponentRequest.init loads generate_checksum parser request' name = inl e.
Proof.
  intros Hb Hb' Hsame Hgate.
  assert (Hget : forall k default, k <> "actionQueue" ->
                 dict_get d' k default = dict_get d k default).
  { intros k default Hk. unfold dict_get. now rewrite (Hsame k Hk). }
  assert (Hv : validate_checksum (VDict d') (dict_get d "data" VNone)
               = validate_checksum (VDict d) (dict_get d "data" VNone)).
  { apply validate_checksum_same_fields. symmetry. apply Hsame. discriminate. }
  unfold ComponentRequest.init. rewrite Hb, Hb'. cbn [bind py_get ret].
  rewrite !Hget by discriminate.
  destruct (truthy name); cbn [negb]; [|now eexists].
  destruct (is_None (dict_get d "data" VNone)); [now eexists|].
  destruct (truthy (dict_get d "id" VNone)); cbn [negb]; [|now eexists].
  destruct (truthy (dict_get d "epoch" (VStr ""))); cbn [negb]; [|now eexists].
  rewrite Hv.
  destruct (validate_checksum (VDict d) (dict_get d "data" VNone)) as [e|[]].
  - exists e. now split.
  - now contradiction Hgate.
Qed.

(** C8.  Checksum validation comes before classification.  A
    constructed request has passed [validate_checksum] on its own body
    and data, so the checksum of its body is the digest of its data, and
    its queue is the classification of that body.  When the four
    required fields are in place and [validate_checksum] raises, the
    constructor raises that very exception, whatever the action queue
    holds and also when classifying the queue would raise.  On every path
    where the gate does not pass, the exception the constructor raises
    is the same for every method-name parser and for every value of the
    [actionQueue] field: no entry of the queue was looked at. *)
Theorem checksum_before_classification :
  forall request name,
    (forall cr, init request name = inr cr ->
       validate_checksum (ComponentRequest.body cr) (ComponentRequest.data cr) = inr tt /\
       (exists d digest,
           ComponentRequest.body cr = VDict d /\
           generate_checksum (ComponentRequest.data cr) = inr digest /\
           dict_get d "checksum" VNone = VStr digest) /\
       classify_actions (ComponentRequest.body cr)
         = inr (ComponentRequest.action_queue cr)) /\
    ((forall b dat, read_body request = inr b -> py_get b "data" VNone = inr dat ->
                    validate_checksum b dat <> inr tt) ->
     exists e, forall parser,
         ComponentRequest.init loads generate_checksum parser request name = inl e) /\
    (forall d e,
       read_body request = inr (VDict d) ->
       truthy name = true ->
       is_None (dict_get d "data" VNone) = false ->
       truthy (dict_get d "id" VNone) = true ->
       truthy (dict_get d "epoch" (VStr "")) = true ->
       validate_checksum (VDict d) (dict_get d "data" VNone) = inl e ->
       init request name = inl e /\
       (forall e', classify_actions (VDict d) = inl e' -> init request name = inl e) /\
       (forall parser,
          ComponentRequest.init loads generate_checksum parser request name = inl e)) /\
    (forall request' d d',
       read_body request = inr (VDict d) ->
       ComponentRequest.read_body loads request' = inr (VDict d') ->
       (forall k, k <> "actionQueue" ->
                  dict_lookup (KStr k) d = dict_lookup (KStr k) d') ->
       validate_checksum (VDict d) (dict_get d "data" VNone) <> inr tt ->
       exists e,
         init request name = inl e /\
         forall parser,
           ComponentRequest.init loads generate_checksum parser request' name
           = inl e).
Proof.
  intros request name. split; [|split; [|split]].
  - intros cr H. destruct (init_inversion request name cr H) as (_ & _ & Hv & Hq).
    split; [exact Hv|]. split; [|exact Hq].
    apply validate_checksum_ok_iff in Hv as (d & digest & Hb & _ & Hg & Hc).
    now exists d, digest.
  - apply init_gate_closed.
  - intros d e Hb Hn Hd Hi He Hv.
    assert (Hall : forall parser,
               ComponentRequest.init loads generate_checksum parser request name
               = inl e).
    { intro parser. unfold ComponentRequest.init. rewrite Hb. cbn [bind py_get ret].
      rewrite Hn, Hd, Hi, He. cbn [negb]. now rewrite Hv. }
    split; [apply Hall|]. split; [intros e' _; apply Hall | exact Hall].
  - intros request' d d'. apply init_without_queue.
Qed.

(** C9.  A decoded body that passes the field checks and the checksum
    gate and has no [actionQueue] key is accepted, and the action queue
    of the constructed request is empty. *)
Theorem absent_action_queue_accepted :
  forall request name d,
    read_body request = inr (VDict d) ->
    truthy name = true ->
    is_None (dict_get d "data" VNone) = false ->
    truthy (dict_get d "id" VNone) = true ->
    truthy (dict_get d "epoch" (VStr "")) = true ->
    validate_checksum (VDict d) (dict_get d "data" VNone) = inr tt ->
    dict_lookup (KStr "actionQueue") d = None ->
    init request name =
      inr (ComponentRequest.mk [] (VDict d) (dict_get d "data" VNone)
             (dict_get d "epoch" (VStr "")) (dict_get d "hash" (VStr ""))
             (dict_get d "id" VNone) (dict_get d "key" (VStr "")) name request).
Proof.
  intros request name d Hb Hn Hd Hi He Hv Hq.
  rewrite (init_fields_present request name d Hb Hn Hd Hi He).
  unfold gate_then_classify. rewrite Hv. simpl.
  now rewrite (classify_actions_no_queue d Hq).
Qed.

(** C10.  [data] is rejected when it is absent or [None] and only then:
    an empty mapping passes the check and, with [id] and [epoch] in
    place, reaches [validate_checksum], which is run on it.  [id] and
    [epoch] are rejected whenever they are falsy, the empty string
    included. *)
Theorem asymmetric_emptiness :
  forall request name d,
    read_body request = inr (VDict d) ->
    truthy name = true ->
    let data := dict_get d "data" VNone in
    let id := dict_get d "id" VNone in
    let epoch := dict_get d "epoch" (VStr "") in
    (dict_lookup (KStr "data") d = None \/ dict_lookup (KStr "data") d = Some VNone ->
     init request name = inl (AssertionError "Missing data")) /\
    (is_None data = false ->
     init request name =
       if negb (truthy id) then inl (AssertionError "Missing component id")
       else if negb (truthy epoch) then inl (AssertionError "Missing epoch")
       else gate_then_classify request name d) /\
    (dict_lookup (KStr "data") d = Some (VDict []) ->
     truthy id = true -> truthy epoch = true ->
     init request name =
       (_ <- validate_checksum (VDict d) (VDict []) ;;
        action_queue <- classify_actions (VDict d) ;;
        ret (ComponentRequest.mk action_queue (VDict d) (VDict []) epoch
               (dict_get d "hash" (VStr "")) id (dict_get d "key" (VStr ""))
               name request))) /\
    (is_None data = false -> truthy id = false ->
     init request name = inl (AssertionError "Missing component id")) /\
    (is_None data = false -> dict_lookup (KStr "id") d = Some (VStr "") ->
     init request name = inl (AssertionError "Missing component id")) /\
    (is_None data = false -> truthy id = true -> truthy epoch = false ->
     init request name = inl (AssertionError "Missing epoch")) /\
    (is_None data = false -> truthy id = true ->
     dict_lookup (KStr "epoch") d = Some (VStr "") ->
     init request name = inl (AssertionError "Missing epoch")).
Proof.
  intros request name d Hb Hn data id epoch. repeat split.
  - intros [H|H]; apply init_missing_data with d; try assumption.
    + now rewrite (dict_get_absent _ _ _ H).
    + now rewrite (dict_get_lookup _ _ _ _ H).
  - intro Hd. destruct (truthy id) eqn:Hi; simpl.
    + destruct (truthy epoch) eqn:He; simpl.
      * now apply init_fields_present.
      * now apply init_missing_epoch with d.
    + now apply init_missing_id with d.
  - intros H Hi He.
    assert (Hdata : data = VDict []) by (now apply dict_get_lookup).
    rewrite (init_fields_present request name d Hb Hn); try assumption.
    + unfold gate_then_classify. fold data id epoch. now rewrite Hdata.
    + fold data. now rewrite Hdata.
  - now apply init_missing_id.
  - intros Hd H. apply init_missing_id with d; try assumption.
    now rewrite (dict_get_lookup _ _ _ _ H).
  - now apply init_missing_epoch.
  - intros Hd Hi H. apply init_missing_epoch with d; try assumption.
    now rewrite (dict_get_lookup _ _ _ _ H).
Qed.

(** *** The action classifier *)

Lemma classify_raw_action entry :
  raw_action entry ->
  exists a, classify entry = inr a /\ classified_as entry a /\ raw_of a = entry.
Proof.
  intros (e & -> & Hcall). unfold ComponentRequest.classify. simpl.
  destruct (eq_str (dict_get e "type" VNone) "syncInput") eqn:Hs.
  { apply eq_str_true in Hs. eexists. repeat split. now constructor. }
  destruct (eq_str (dict_get e "type" VNone) "callMethod") eqn:Hc.
  2:{ apply eq_str_false in Hs, Hc. eexists. repeat split. now constructor. }
  apply eq_str_true in Hc. destruct (Hcall Hc) as (p & [[m args] kwargs] & Hp & Hr).
  rewrite Hp. simpl. rewrite Hr. simpl.
  destruct (String.eqb_spec m "$refresh") as [->|Hn1].
  { eexists. repeat split. now apply as_refresh with p args kwargs. }
  destruct (String.eqb_spec m "$reset") as [->|Hn2].
  { eexists. repeat split. now apply as_reset with p args kwargs. }
  destruct (String.eqb_spec m "$toggle") as [->|Hn3].
  { eexists. repeat split. now apply as_toggle with p args kwargs. }
  eexists. repeat split. now apply as_call_method with p m args kwargs.
Qed.

Lemma classify_queue_raw entries :
  Forall raw_action entries ->
  forall queue, exists acts,
    classify_queue queue entries = inr (queue ++ acts) /\
    Forall2 classified_as entries acts /\
    map raw_of acts = entries.
Proof.
  induction 1 as [|entry entries Hentry _ IH]; intro queue.
  - exists []. simpl. rewrite app_nil_r. repeat split. constructor.
  - destruct (classify_raw_action entry Hentry) as (a & Ha & Hcls & Hraw).
    destruct (IH (queue ++ [a])) as (acts & Hq & Hall & Hraws).
    exists (a :: acts). simpl. rewrite Ha. simpl. rewrite Hq.
    rewrite <- app_assoc. simpl. repeat split.
    + now constructor.
    + now rewrite Hraw, Hraws.
Qed.

(** C3.  For a queue of raw actions the classifier returns one
    classified action per entry, in the order of the entries, each built
    from its entry: [SyncInput] for type ["syncInput"]; for type
    ["callMethod"], [Refresh], [Reset] or [Toggle] when the parsed method
    name is ["$refresh"], ["$reset"] or ["$toggle"], and [CallMethod]
    otherwise; [Action] for every other type, which is never rejected. *)
Theorem classifier_one_per_entry :
  forall d entries,
    dict_lookup (KStr "actionQueue") d = Some (VList entries) ->
    Forall raw_action entries ->
    (exists acts,
       classify_actions (VDict d) = inr acts /\
       Forall2 classified_as entries acts /\
       map raw_of acts = entries /\
       List.length acts = List.length entries) /\
    (forall e, dict_get e "type" VNone <> VStr "syncInput" ->
               dict_get e "type" VNone <> VStr "callMethod" ->
               classify (VDict e) = inr (Action (VDict e))).
Proof.
  intros d entries Hq Hraw. split.
  - destruct (classify_queue_raw entries Hraw []) as (acts & Hc & Hall & Hraws).
    exists acts. unfold ComponentRequest.classify_actions. simpl.
    rewrite (dict_get_lookup _ _ _ _ Hq). simpl.
    repeat split; try assumption.
    rewrite <- Hraws. now rewrite length_map.
  - intros e Hs Hc. unfold ComponentRequest.classify. simpl.
    apply eq_str_false in Hs, Hc. now rewrite Hs, Hc.
Qed.


(** ** The path tree builder *)

Lemma malformed_index_raises_ValueError part :
  malformed_index part ->
  array_notation part = true /\ base_and_index part = inl ValueError.
Proof.
  intros (text & Ht & Hint). unfold index_text in Ht.
  destruct (index_of "[" part) as [i|] eqn:Hi; [|discriminate].
  destruct (index_of "]" part) as [j|] eqn:Hj; [|discriminate].
  injection Ht as <-. split.
  - unfold array_notation. apply andb_true_iff.
    split; apply has_char_index_of; congruence.
  - unfold base_and_index. now rewrite Hi, Hj, Hint.
Qed.

Lemma assign_path_malformed_first part rest v current :
  malformed_index part -> assign_path (part :: rest) v current = inl ValueError.
Proof.
  intro H. destruct (malformed_index_raises_ValueError part H) as [Ha Hb].
  destruct rest as [|next rest].
  - cbn [assign_path]. unfold assign_final. now rewrite Ha, Hb.
  - rewrite assign_path_step. now rewrite Ha, Hb.
Qed.




Lemma post_field_data key field data :
  prefix "data." key = true ->
  post_field loads data (key, field)
  = assign_path (split "." (drop 5 key)) (VStr field) data.
Proof. intro H. unfold post_field. now rewrite H. Qed.


(** C4.  In the POST pass a segment [name[ds]] finds the sequence bound
    to [name], or materializes an empty one, and extends it with
    placeholders up to position [ds].  At the final segment the
    placeholders are [None] and the value is stored at the position; at
    an intermediate segment the placeholders are empty mappings and the
    walk goes on from the element at the position.  The earlier elements
    are kept.  In particular the single field [data.items[2].x = "v"]
    gives a sequence of three elements: two empty mappings and a mapping
    with [x] bound to ["v"]. *)
Theorem indexed_segment_extends :
  forall name ds d old v,
    bracket_free name = true ->
    digits ds = true ->
    bound_sequence d name = Some old ->
    let n := Z.to_nat (decimal ds) in
    (exists seq,
       assign_final (indexed name ds) v (VDict d)
         = inr (VDict (dict_set (KStr name) (VList seq) d)) /\
       List.length seq = Nat.max (List.length old) (n + 1) /\
       nth_error seq n = Some v /\
       (forall i, (i < List.length old)%nat -> i <> n ->
                  nth_error seq i = nth_error old i) /\
       (forall i, (List.length old <= i < n)%nat -> nth_error seq i = Some VNone)) /\
    (forall next rest, exists seq target,
       List.length seq = Nat.max (List.length old) (n + 1) /\
       (forall i, (i < List.length old)%nat -> nth_error seq i = nth_error old i) /\
       (forall i, (List.length old <= i <= n)%nat ->
                  nth_error seq i = Some (VDict [])) /\
       nth_error seq n = Some target /\
       assign_path (indexed name ds :: next :: rest) v (VDict d)
         = (child <- assign_path (next :: rest) v target ;;
            inr (VDict (dict_set (KStr name) (VList (list_set n child seq)) d)))) /\
    (forall meta text,
       parse_multipart_data loads
         (HttpRequest.mk meta text [("data.items[2].x", "v")] [])
       = inr (VDict [(KStr "items",
                      VList [VDict []; VDict [];
                             VDict [(KStr "x", VStr "v")]])])).
Proof.
  intros name ds d old v Hn Hd Hb n. split; [|split].
  - exists (list_set n v (zero_extend old n VNone)).
    assert (Hlen : (n < List.length (zero_extend old n VNone))%nat)
      by (rewrite zero_extend_length; lia).
    split; [now apply assign_final_indexed|].
    split; [now rewrite list_set_length, zero_extend_length|].
    split; [now apply list_set_same|].
    split.
    + intros i Hi Hne. rewrite list_set_other by assumption.
      now apply zero_extend_old.
    + intros i Hi. rewrite list_set_other by lia.
      apply zero_extend_new. lia.
  - intros next rest.
    exists (zero_extend old n (VDict [])), (nth n old (VDict [])).
    split; [apply zero_extend_length|].
    split; [intros i Hi; now apply zero_extend_old|].
    split; [intros i Hi; now apply zero_extend_new|].
    split; [apply zero_extend_target|].
    now apply assign_path_indexed.
  - intros meta text. reflexivity.
Qed.


(** The files pass stores one file as the file itself and several files
    as their sequence, under the last segment of the key. *)
Lemma file_field_leaf leaf file_list d :
  has_char "." leaf = false ->
  file_field (VDict d) (("data." ++ leaf)%string, file_list)
  = inr (VDict (dict_set (KStr leaf) (file_value file_list) d)) /\
  (forall f, file_list = [f] -> file_value file_list = VFile f) /\
  (forall f g more, file_list = f :: g :: more ->
                    file_value file_list = VList (map VFile file_list)).
Proof.
  intro H. split; [|split].
  - unfold file_field. simpl.
    replace (prefix "" leaf) with true by (now destruct leaf).
    rewrite (split_plain "." leaf H). reflexivity.
  - now intros f ->.
  - now intros f g more ->.
Qed.

(** * Further properties *)

(** ** The path tree builder, continued *)

Lemma pykey_eqb_eq a b : pykey_eqb a b = true <-> a = b.
Proof.
  destruct a, b; simpl; split; intro H; try discriminate.
  - apply String.eqb_eq in H. now subst.
  - injection H as ->. apply String.eqb_refl.
  - apply Z.eqb_eq in H. now subst.
  - injection H as ->. apply Z.eqb_refl.
Qed.

Lemma dict_lookup_set_other k k' v d :
  k <> k' -> dict_lookup k (dict_set k' v d) = dict_lookup k d.
Proof.
  intro Hne. induction d as [|[k0 v0] d IH]; simpl.
  - destruct (pykey_eqb k' k) eqn:E; [|reflexivity].
    apply pykey_eqb_eq in E. congruence.
  - destruct (pykey_eqb k0 k') eqn:E1; simpl.
    + destruct (pykey_eqb k0 k) eqn:E2; [|reflexivity].
      apply pykey_eqb_eq in E1, E2. congruence.
    + now rewrite IH.
Qed.

Lemma position_bound len i n : position len i = Some n -> (n < len)%nat.
Proof.
  unfold position. intro H.
  destruct (i <? 0)%Z.
  - destruct (Z.leb_spec 0 (i + Z.of_nat len)); [|discriminate].
    destruct (Z.ltb_spec (i + Z.of_nat len) (Z.of_nat len)); [|discriminate].
    injection H as <-. lia.
  - destruct (Z.leb_spec 0 i); [|discriminate].
    destruct (Z.ltb_spec i (Z.of_nat len)); [|discriminate].
    injection H as <-. lia.
Qed.

Lemma getitem_setitem o k x o' :
  py_setitem o k x = inr o' -> py_getitem o' k = inr x.
Proof.
  destruct o; try discriminate; simpl.
  - destruct k; try discriminate.
    destruct (position (List.length l) z) as [n|] eqn:Hp; [|discriminate].
    intro H. injection H as <-. simpl. rewrite list_set_length, Hp.
    rewrite list_set_same; [reflexivity|]. now apply position_bound with z.
  - intro H. injection H as <-. destruct k; simpl; now rewrite dict_lookup_set_same.
Qed.

Ltac step H :=
  match type of H with
  | bind ?m _ = inr _ =>
      let E := fresh "E" in
      destruct m eqn:E; cbn [bind] in H; [discriminate H|]
  | (let '(_, _) := ?p in _) = inr _ => destruct p
  end.

Lemma assign_final_read final v c r :
  assign_final final v c = inr r -> read_path [final] r = inr v.
Proof.
  unfold assign_final. cbn [read_path].
  destruct (array_notation final) eqn:Ha; intro H.
  - repeat step H. cbn [bind].
    rewrite (getitem_setitem _ _ _ _ H). cbn [bind].
    match goal with
    | E : py_setitem _ (KInt _) v = inr _ |- _ => rewrite (getitem_setitem _ _ _ _ E)
    end.
    reflexivity.
  - now rewrite (getitem_setitem _ _ _ _ H).
Qed.

Lemma assign_path_read parts :
  forall v c r, assign_path parts v c = inr r -> read_path parts r = inr v.
Proof.
  induction parts as [|part rest IH]; intros v c r H; [discriminate|].
  destruct rest as [|next rest]; [now apply assign_final_read with c|].
  rewrite assign_path_step in H. cbn [read_path].
  destruct (array_notation part) eqn:Ha.
  - repeat step H. cbn [bind].
    rewrite (getitem_setitem _ _ _ _ H). cbn [bind].
    match goal with
    | E : py_setitem _ (KInt _) _ = inr _ |- _ => rewrite (getitem_setitem _ _ _ _ E)
    end.
    cbn [bind]. eapply IH. eassumption.
  - repeat step H. cbn [bind].
    rewrite (getitem_setitem _ _ _ _ H). cbn [bind]. eapply IH. eassumption.
Qed.

Lemma setdefault_dict d k fresh c :
  setdefault (VDict d) k fresh = inr c ->
  exists d', c = VDict d' /\
             forall x, dict_set (KStr k) x d' = dict_set (KStr k) x d.
Proof.
  unfold setdefault. simpl.
  destruct (dict_lookup (KStr k) d); simpl; intro H; injection H as <-.
  - now exists d.
  - exists (dict_set (KStr k) fresh d). split; [reflexivity|].
    intro x. apply dict_set_set.
Qed.

Lemma base_and_index_first_key part b i :
  array_notation part = true -> base_and_index part = inr (b, i) ->
  first_key part = b.
Proof.
  unfold first_key, base_and_index. intros -> H.
  destruct (index_of "[" part); [|discriminate].
  destruct (index_of "]" part); [|discriminate].
  destruct (py_int _); [|discriminate]. now injection H as <- _.
Qed.

Lemma setitem_after_setdefault d k fresh c x r :
  setdefault (VDict d) k fresh = inr c ->
  py_setitem c (KStr k) x = inr r ->
  r = VDict (dict_set (KStr k) x d).
Proof.
  intros Hs H. destruct (setdefault_dict d k fresh c Hs) as (d' & -> & Hset).
  simpl in H. injection H as <-. now rewrite Hset.
Qed.

Lemma assign_path_top parts v d r :
  assign_path parts v (VDict d) = inr r ->
  exists part rest x,
    parts = part :: rest /\ r = VDict (dict_set (KStr (first_key part)) x d).
Proof.
  destruct parts as [|part rest]; [discriminate|]. intro H.
  exists part, rest.
  destruct rest as [|next rest].
  - cbn [assign_path] in H. unfold assign_final in H.
    destruct (array_notation part) eqn:Ha.
    + repeat step H.
      erewrite base_and_index_first_key by eassumption.
      eexists. split; [reflexivity|].
      eapply setitem_after_setdefault; eassumption.
    + unfold first_key. rewrite Ha. simpl in H. injection H as <-.
      now eexists.
  - rewrite assign_path_step in H.
    destruct (array_notation part) eqn:Ha.
    + repeat step H.
      erewrite base_and_index_first_key by eassumption.
      eexists. split; [reflexivity|].
      eapply setitem_after_setdefault; eassumption.
    + repeat step H. unfold first_key. rewrite Ha.
      eexists. split; [reflexivity|].
      eapply setitem_after_setdefault; eassumption.
Qed.

Lemma assign_file_path_top parts v d r :
  assign_file_path parts v (VDict d) = inr r ->
  exists part rest x,
    parts = part :: rest /\ r = VDict (dict_set (KStr part) x d).
Proof.
  destruct parts as [|part rest]; [discriminate|]. intro H.
  exists part, rest.
  destruct rest as [|next rest].
  - simpl in H. injection H as <-. now eexists.
  - rewrite assign_file_path_step in H. repeat step H.
    eexists. split; [reflexivity|].
    eapply setitem_after_setdefault; eassumption.
Qed.


Lemma post_field_top d key field r :
  post_field loads (VDict d) (key, field) = inr r ->
  exists x, r = VDict (dict_set (KStr (top_key key)) x d).
Proof.
  unfold post_field, top_key. destruct (prefix "data." key).
  - intro H. destruct (assign_path_top _ _ _ _ H) as (part & rest & x & Hp & ->).
    rewrite Hp. now exists x.
  - destruct (String.eqb key "actionQueue").
    + destruct (loads field); [|discriminate]. simpl. intro H. injection H as <-.
      now eexists.
    + simpl. intro H. injection H as <-. now eexists.
Qed.

Lemma file_field_top d key file_list r :
  file_field (VDict d) (key, file_list) = inr r ->
  if prefix "data." key
  then exists x, r = VDict (dict_set (KStr (file_top_key key)) x d)
  else r = VDict d.
Proof.
  unfold file_field, file_top_key. destruct (prefix "data." key).
  - intro H. destruct (assign_file_path_top _ _ _ _ H) as (part & rest & x & Hp & ->).
    rewrite Hp. now exists x.
  - intro H. now injection H as <-.
Qed.

Lemma bound_set k k' x d : bound k (dict_set k' x d) <-> k = k' \/ bound k d.
Proof.
  unfold bound. destruct (pykey_eqb k k') eqn:E.
  - apply pykey_eqb_eq in E. subst. rewrite dict_lookup_set_same.
    split; [now left | discriminate].
  - assert (Hne : k <> k').
    { intro H. apply pykey_eqb_eq in H. congruence. }
    rewrite dict_lookup_set_other by assumption.
    split; [now right | now intros [?|?]].
Qed.


Lemma post_pass_keys items : forall d0 b,
  for_each (post_field loads) items (VDict d0) = inr b ->
  exists d, b = VDict d /\
    forall k, bound k d <->
      bound k d0 \/
      exists s, k = KStr s /\ In s (map (fun kv => top_key (fst kv)) items).
Proof.
  induction items as [|[key field] items IH]; intros d0 b H.
  - simpl in H. injection H as <-. exists d0. split; [reflexivity|].
    intro k. split; [now left|]. intros [?|(s & _ & [])]. assumption.
  - cbn [for_each] in H. step H.
    destruct (post_field_top _ _ _ _ E) as (x & ->).
    destruct (IH _ _ H) as (d & -> & Hd). exists d. split; [reflexivity|].
    intro k. rewrite Hd, bound_set. cbn [map fst In]. split.
    + intros [[->|Hb]|(s & -> & Hin)].
      * right. exists (top_key key). split; [reflexivity | now left].
      * now left.
      * right. exists s. split; [reflexivity | now right].
    + intros [Hb|(s & -> & [<-|Hin])].
      * left. now right.
      * left. now left.
      * right. now exists s.
Qed.

Lemma files_pass_keys items : forall d0 b,
  for_each file_field items (VDict d0) = inr b ->
  exists d, b = VDict d /\
    forall k, bound k d <->
      bound k d0 \/
      exists s, k = KStr s /\
        In s (map (fun kv => file_top_key (fst kv))
                  (filter (fun kv => prefix "data." (fst kv)) items)).
Proof.
  induction items as [|[key file_list] items IH]; intros d0 b H.
  - simpl in H. injection H as <-. exists d0. split; [reflexivity|].
    intro k. split; [now left|]. intros [?|(s & _ & [])]. assumption.
  - cbn [for_each] in H. step H. cbn [filter fst].
    pose proof (file_field_top _ _ _ _ E) as Htop.
    destruct (prefix "data." key).
    + destruct Htop as (x & ->).
      destruct (IH _ _ H) as (d & -> & Hd). exists d. split; [reflexivity|].
      intro k. rewrite Hd, bound_set. cbn [map fst In]. split.
      * intros [[->|Hb]|(s & -> & Hin)].
        -- right. exists (file_top_key key). split; [reflexivity | now left].
        -- now left.
        -- right. exists s. split; [reflexivity | now right].
      * intros [Hb|(s & -> & [<-|Hin])].
        -- left. now right.
        -- left. now left.
        -- right. now exists s.
    + subst v. exact (IH _ _ H).
Qed.

Lemma parse_multipart_data_keys request b :
  parse_multipart_data loads request = inr b ->
  exists d, b = VDict d /\
    forall k, bound k d <-> exists s, k = KStr s /\ In s (field_keys request).
Proof.
  unfold parse_multipart_data, field_keys. intro H. step H.
  destruct (post_pass_keys _ _ _ E) as (d1 & -> & H1).
  destruct (files_pass_keys _ _ _ H) as (d & -> & H2).
  exists d. split; [reflexivity|]. intro k. rewrite H2, H1. split.
  - intros [[Hb|(s & -> & Hin)]|(s & -> & Hin)].
    + now contradiction Hb.
    + exists s. split; [reflexivity|]. apply in_or_app. now left.
    + exists s. split; [reflexivity|]. apply in_or_app. now right.
  - intros (s & -> & Hin). apply in_app_or in Hin as [Hin|Hin].
    + left. right. now exists s.
    + right. now exists s.
Qed.

Lemma dict_set_keys k x d :
  map fst (dict_set k x d)
  = match dict_lookup k d with
    | Some _ => map fst d
    | None => map fst d ++ [k]
    end.
Proof.
  induction d as [|[k0 v0] d IH]; simpl; [reflexivity|].
  destruct (pykey_eqb k0 k); simpl; [reflexivity|].
  rewrite IH. now destruct (dict_lookup k d).
Qed.

(** X1.  What the POST pass assigns can be read back: when a [data.]
    field is assigned without an exception, walking the segments of its
    key through the result ends at the value of the field. *)
Theorem assigned_field_reads_back :
  forall data key field r,
    prefix "data." key = true ->
    post_field loads data (key, field) = inr r ->
    read_path (split "." (drop 5 key)) r = inr (VStr field).
Proof.
  intros data key field r Hk H. rewrite (post_field_data key field data Hk) in H.
  now apply assign_path_read with data.
Qed.

(** X2.  One form field changes one top-level binding of the body: the
    key [top_key key] is bound afterwards, every other key keeps its
    value, the keys that were there keep their order and a new key goes
    last. *)
Theorem field_binds_one_key :
  forall d key field r,
    post_field loads (VDict d) (key, field) = inr r ->
    exists d',
      r = VDict d' /\
      bound (KStr (top_key key)) d' /\
      (forall k, k <> KStr (top_key key) -> dict_lookup k d' = dict_lookup k d) /\
      map fst d' = match dict_lookup (KStr (top_key key)) d with
                   | Some _ => map fst d
                   | None => map fst d ++ [KStr (top_key key)]
                   end.
Proof.
  intros d key field r H. destruct (post_field_top d key field r H) as (x & ->).
  eexists. split; [reflexivity|]. split; [|split].
  - apply bound_set. now left.
  - intros k Hk. now apply dict_lookup_set_other.
  - apply dict_set_keys.
Qed.

(** X3.  A multipart parse that returns, returns a mapping, and its
    top-level keys are exactly the top keys of the form fields and of
    the [data.] file fields. *)
Theorem parsed_form_is_mapping_of_field_keys :
  forall request b,
    parse_multipart_data loads request = inr b ->
    exists d,
      b = VDict d /\
      forall k, bound k d <-> exists s, k = KStr s /\ In s (field_keys request).
Proof.
  intros request b H. unfold parse_multipart_data in H. step H.
  destruct (post_pass_keys _ _ _ E) as (d1 & -> & H1).
  destruct (files_pass_keys _ _ _ H) as (d & -> & H2).
  exists d. split; [reflexivity|]. intro k. unfold field_keys.
  rewrite H2, H1. split.
  - intros [[Hb|(s & -> & Hin)]|(s & -> & Hin)].
    + now contradiction Hb.
    + exists s. split; [reflexivity|]. apply in_or_app. now left.
    + exists s. split; [reflexivity|]. apply in_or_app. now right.
  - intros (s & -> & Hin). apply in_app_or in Hin as [Hin|Hin].
    + left. right. now exists s.
    + right. now exists s.
Qed.

Lemma read_body_multipart request d :
  ComponentRequest.is_multipart request = true ->
  parse_multipart_data loads request = inr (VDict d) ->
  read_body request
  = if truthy (VDict d) then inr (VDict d) else inl (AssertionError "Invalid body").
Proof.
  intros Hm Hp. unfold ComponentRequest.read_body, ComponentRequest.decode.
  rewrite Hm, Hp. cbn [bind]. now destruct (truthy (VDict d)).
Qed.

Lemma read_body_multipart_raises request e :
  ComponentRequest.is_multipart request = true ->
  parse_multipart_data loads request = inl e ->
  exists e', read_body request = inl e'.
Proof.
  intros Hm Hp. unfold ComponentRequest.read_body, ComponentRequest.decode.
  rewrite Hm, Hp. cbn [bind]. destruct e; now eexists.
Qed.

(** X4.  The fields [data.<path>] are stored at the top level of the
    body, not under its [data] key.  So a multipart request none of
    whose fields has the top key [data] never constructs a
    [ComponentRequest]: when the form parses to a non-empty body and the
    component name is given, the constructor raises
    [AssertionError("Missing data")]. *)
Theorem data_fields_do_not_bind_data :
  forall request name,
    ComponentRequest.is_multipart request = true ->
    ~ In "data" (field_keys request) ->
    (forall b, parse_multipart_data loads request = inr b ->
               py_get b "data" VNone = inr VNone) /\
    (forall b, parse_multipart_data loads request = inr b ->
               truthy b = true -> truthy name = true ->
               init request name = inl (AssertionError "Missing data")) /\
    (forall cr, init request name <> inr cr).
Proof.
  intros request name Hm Hno.
  assert (Hdata : forall b, parse_multipart_data loads request = inr b ->
                  exists d, b = VDict d /\ dict_get d "data" VNone = VNone).
  { intros b Hp. destruct (parse_multipart_data_keys request b Hp) as (d & -> & Hk).
    exists d. split; [reflexivity|]. unfold dict_get.
    destruct (dict_lookup (KStr "data") d) eqn:E; [|reflexivity].
    exfalso. apply Hno.
    destruct (proj1 (Hk (KStr "data"))) as (s & Hs & Hin).
    - unfold bound. now rewrite E.
    - now injection Hs as <-. }
  assert (Hmissing : forall b, parse_multipart_data loads request = inr b ->
             truthy b = true -> truthy name = true ->
             init request name = inl (AssertionError "Missing data")).
  { intros b Hp Hb Hn. destruct (Hdata b Hp) as (d & -> & Hd).
    apply init_missing_data with d; [|assumption|now rewrite Hd].
    rewrite (read_body_multipart request d Hm Hp). now rewrite Hb. }
  split; [|split].
  - intros b Hp. destruct (Hdata b Hp) as (d & -> & Hd). simpl. now rewrite Hd.
  - exact Hmissing.
  - intros cr Hcr. clear Hmissing.
    destruct (parse_multipart_data loads request) as [e|b] eqn:Hp.
    + destruct (read_body_multipart_raises request e Hm Hp) as [e' He'].
      rewrite (init_read_error request name e' He') in Hcr. discriminate.
    + destruct (Hdata b eq_refl) as (d & -> & Hd).
      pose proof (read_body_multipart request d Hm Hp) as Hr.
      destruct (truthy (VDict d)) eqn:Hb.
      * destruct (truthy name) eqn:Hn.
        -- rewrite (init_missing_data request name d Hr Hn) in Hcr;
             [discriminate | now rewrite Hd].
        -- rewrite (init_missing_name request name (VDict d) Hr Hn) in Hcr.
           discriminate.
      * rewrite (init_read_error request name _ Hr) in Hcr. discriminate.
Qed.

(** X5.  The form field [actionQueue] is stored decoded, not as text;
    when its text does not decode, the parse raises [JSONDecodeError],
    which leaves the constructor as
    [UnicornViewError("Body could not be parsed")]. *)
Theorem action_queue_field_is_decoded :
  forall meta raw pre text post files d,
    for_each (post_field loads) pre (VDict []) = inr (VDict d) ->
    let request :=
      HttpRequest.mk meta raw (pre ++ ("actionQueue", text) :: post) files in
    (forall v, loads text = Some v ->
       post_field loads (VDict d) ("actionQueue", text)
       = inr (VDict (dict_set (KStr "actionQueue") v d))) /\
    (loads text = None ->
     parse_multipart_data loads request = inl JSONDecodeError /\
     (ComponentRequest.is_multipart request = true ->
      forall name,
        init request name = inl (UnicornViewError "Body could not be parsed"))).
Proof.
  intros meta raw pre text post files d Hpre request. split.
  - intros v Hv. unfold post_field. cbn. now rewrite Hv.
  - intro Hnone.
    assert (Hp : parse_multipart_data loads request = inl JSONDecodeError).
    { unfold parse_multipart_data, request. cbn [HttpRequest.POST].
      rewrite for_each_app, Hpre. cbn [bind for_each].
      unfold post_field at 1. cbn. now rewrite Hnone. }
    split; [exact Hp|]. intros Hm name. apply init_read_error.
    apply read_body_decode_error. unfold ComponentRequest.decode. now rewrite Hm.
Qed.

Lemma append_assoc (a b c : string) : ((a ++ b) ++ c = a ++ (b ++ c))%string.
Proof. induction a as [|x a IH]; simpl; [reflexivity | now rewrite IH]. Qed.

Lemma unsigned_int_digits ds : digits ds = true -> unsigned_int ds = Some (decimal ds).
Proof.
  intro H. destruct ds as [|c s]; [discriminate|].
  assert (Hc : is_digit c = true) by (simpl in H; now apply andb_true_iff in H as [? _]).
  unfold unsigned_int. rewrite Hc. now apply scan_all_digits.
Qed.

Lemma py_int_negative ds :
  digits ds = true -> py_int (String "-" ds) = Some (- decimal ds)%Z.
Proof.
  intro H. rewrite py_int_by_sign.
  assert (Hall : all_digits ds = true) by (destruct ds; [discriminate | exact H]).
  assert (Hs : rstrip (lstrip (String "-" ds)) = String "-" ds).
  { cbn [lstrip]. change (is_space "-") with false. cbn [rstrip].
    rewrite (rstrip_all_digits ds Hall). destruct ds; [discriminate | reflexivity]. }
  rewrite Hs. change (Ascii.eqb "-" "+") with false. change (Ascii.eqb "-" "-") with true.
  cbv iota. now rewrite (unsigned_int_digits ds H).
Qed.

Lemma base_and_index_with_tail name ds tail :
  bracket_free name = true -> digits ds = true ->
  array_notation (name ++ String "[" (ds ++ String "]" tail))%string = true /\
  base_and_index (name ++ String "[" (ds ++ String "]" tail))%string
  = inr (name, decimal ds).
Proof.
  unfold bracket_free. intros Hn Hd.
  apply andb_true_iff in Hn as [Ho Hc]. apply negb_true_iff in Ho, Hc.
  assert (Hall : all_digits ds = true) by (destruct ds; [discriminate | exact Hd]).
  split.
  - unfold array_notation. rewrite !has_char_app. cbn [has_char].
    rewrite !has_char_app. cbn [has_char].
    change (Ascii.eqb "[" "[") with true. change (Ascii.eqb "]" "]") with true.
    now rewrite !orb_true_r.
  - unfold base_and_index.
    rewrite (index_of_app "[" name _ Ho), (index_of_app "]" name _ Hc).
    cbn [index_of option_map]. change (Ascii.eqb "[" "[") with true.
    change (Ascii.eqb "[" "]") with false. cbv iota.
    rewrite (index_of_app "]" ds (String "]" tail));
      [|now apply all_digits_no_char]. cbn [index_of option_map].
    change (Ascii.eqb "]" "]") with true. cbv iota. cbn [option_map].
    unfold slice.
    replace (String.length name + 0 - 0)%nat with (String.length name) by lia.
    replace (String.length name + S (String.length ds + 0)
             - (String.length name + 0 + 1))%nat
      with (String.length ds) by lia.
    replace (String.length name + 0 + 1)%nat with (String.length name + 1)%nat by lia.
    rewrite substring_prefix, substring_skip. cbn [substring].
    rewrite substring_prefix, (py_int_digits ds Hd). reflexivity.
Qed.

Lemma assign_path_same_segment part part' rest v current :
  array_notation part = array_notation part' ->
  base_and_index part = base_and_index part' ->
  array_notation part = true ->
  assign_path (part :: rest) v current = assign_path (part' :: rest) v current.
Proof.
  intros Ha Hb Ht. destruct rest as [|next rest].
  - cbn [assign_path]. unfold assign_final. now rewrite <- Ha, <- Hb, Ht.
  - rewrite !assign_path_step. now rewrite <- Ha, <- Hb, Ht.
Qed.

(** X6.  Whatever follows the closing bracket of a segment is ignored:
    [name[ds]tail] is assigned exactly as [name[ds]]. *)
Theorem text_after_bracket_is_ignored :
  forall name ds tail rest v current,
    bracket_free name = true -> digits ds = true ->
    assign_path ((indexed name ds ++ tail)%string :: rest) v current
    = assign_path (indexed name ds :: rest) v current.
Proof.
  intros name ds tail rest v current Hn Hd.
  assert (Hshape : forall t, (indexed name ds ++ t)%string
                             = (name ++ String "[" (ds ++ String "]" t))%string).
  { intro t. unfold indexed. rewrite append_assoc. cbn [append].
    now rewrite append_assoc. }
  destruct (base_and_index_with_tail name ds tail Hn Hd) as [Ha Hb].
  apply assign_path_same_segment.
  - now rewrite Hshape, Ha, array_notation_indexed.
  - now rewrite Hshape, Hb, base_and_index_indexed.
  - now rewrite Hshape.
Qed.

Lemma base_and_index_neg name ds :
  bracket_free name = true -> digits ds = true ->
  array_notation (neg_indexed name ds) = true /\
  base_and_index (neg_indexed name ds) = inr (name, (- decimal ds)%Z).
Proof.
  unfold bracket_free. intros Hn Hd.
  apply andb_true_iff in Hn as [Ho Hc]. apply negb_true_iff in Ho, Hc.
  assert (Hall : all_digits ds = true) by (destruct ds; [discriminate | exact Hd]).
  unfold neg_indexed. split.
  - unfold array_notation. rewrite !has_char_app. simpl.
    now rewrite !orb_true_r.
  - unfold base_and_index.
    rewrite (index_of_app "[" name _ Ho), (index_of_app "]" name _ Hc).
    cbn [index_of option_map append]. change (Ascii.eqb "[" "[") with true.
    change (Ascii.eqb "[" "]") with false. change (Ascii.eqb "-" "]") with false.
    cbv iota.
    rewrite (index_of_app "]" ds "]"); [|now apply all_digits_no_char].
    cbn [index_of option_map]. change (Ascii.eqb "]" "]") with true.
    cbv iota. cbn [option_map].
    unfold slice.
    replace (String.length name + 0 - 0)%nat with (String.length name) by lia.
    replace (String.length name + S (S (String.length ds + 0))
             - (String.length name + 0 + 1))%nat
      with (S (String.length ds)) by lia.
    replace (String.length name + 0 + 1)%nat with (String.length name + 1)%nat by lia.
    rewrite substring_prefix, substring_skip. cbn [substring].
    rewrite substring_prefix, (py_int_negative ds Hd). reflexivity.
Qed.

Lemma position_negative len k :
  (0 < k)%Z ->
  position len (- k) =
  if (k <=? Z.of_nat len)%Z then Some (len - Z.to_nat k)%nat else None.
Proof.
  intro Hk. unfold position.
  destruct (Z.ltb_spec (- k) 0) as [_|?]; [|lia].
  destruct (Z.leb_spec k (Z.of_nat len)) as [Hle|Hgt].
  - destruct (Z.leb_spec 0 (- k + Z.of_nat len)) as [_|?]; [|lia].
    destruct (Z.ltb_spec (- k + Z.of_nat len) (Z.of_nat len)) as [_|?]; [|lia].
    cbn [andb]. f_equal. lia.
  - destruct (Z.leb_spec 0 (- k + Z.of_nat len)) as [?|_]; [lia|]. reflexivity.
Qed.

(** X7.  A negative index never extends the sequence.  At a final
    segment [name[-ds]] with [ds] positive, the element [ds] places from
    the end is replaced when the sequence bound to [name] is that long,
    and the length stays; otherwise, in particular when [name] is not
    bound yet, the assignment raises [IndexError]. *)
Theorem negative_index_counts_from_end :
  forall name ds d old v,
    bracket_free name = true -> digits ds = true ->
    bound_sequence d name = Some old ->
    (0 < decimal ds)%Z ->
    let k := Z.to_nat (decimal ds) in
    ((k <= List.length old)%nat ->
     assign_final (neg_indexed name ds) v (VDict d)
     = inr (VDict (dict_set (KStr name)
                     (VList (list_set (List.length old - k) v old)) d)) /\
     List.length (list_set (List.length old - k) v old) = List.length old) /\
    ((List.length old < k)%nat ->
     assign_final (neg_indexed name ds) v (VDict d) = inl IndexError).
Proof.
  intros name ds d old v Hn Hd Hb Hpos k.
  destruct (base_and_index_neg name ds Hn Hd) as [Ha Hbi].
  destruct (setdefault_sequence d name old Hb) as (d' & Hs & Hl & Hset).
  assert (Hrun : assign_final (neg_indexed name ds) v (VDict d)
                 = (seq <- py_setitem (VList old) (KInt (- decimal ds)) v ;;
                    py_setitem (VDict d') (KStr name) seq)).
  { unfold assign_final. rewrite Ha, Hbi. cbn [bind]. rewrite Hs. cbn [bind py_getitem].
    rewrite Hl. cbn [ret bind]. unfold extend_to. cbn [py_len ret bind].
    destruct (Z.leb_spec (Z.of_nat (List.length old)) (- decimal ds)); [lia|].
    reflexivity. }
  rewrite Hrun. cbn [py_setitem]. rewrite (position_negative _ _ Hpos). split.
  - intro Hle. destruct (Z.leb_spec (decimal ds) (Z.of_nat (List.length old))); [|lia].
    cbn [ret bind]. rewrite Hset. split; [reflexivity | apply list_set_length].
  - intro Hgt. destruct (Z.leb_spec (decimal ds) (Z.of_nat (List.length old))); [lia|].
    reflexivity.
Qed.

Lemma assign_path_not_mapping part rest v c :
  is_mapping c = false -> walkable part ->
  assign_path (part :: rest) v c = inl TypeError.
Proof.
  intros Hc Hw.
  assert (Hset : forall k x, py_setitem c (KStr k) x = inl TypeError).
  { intros k x. destruct c; try reflexivity. discriminate Hc. }
  assert (Hget : forall k, py_getitem c (KStr k) = inl TypeError).
  { intro k. destruct c; try reflexivity. discriminate Hc. }
  assert (Hdef : forall k fresh,
             setdefault c k fresh = inl TypeError \/ setdefault c k fresh = inr c).
  { intros k fresh. unfold setdefault.
    destruct (py_contains c k) as [e|[]] eqn:E; cbn [bind].
    - left. destruct c; simpl in E; unfold raise, ret in E; try discriminate;
        now injection E as <-.
    - now right.
    - left. apply Hset. }
  assert (Hwalk : forall k fresh,
             setdefault c k fresh = inl TypeError \/
             (setdefault c k fresh = inr c /\ py_getitem c (KStr k) = inl TypeError)).
  { intros k fresh. destruct (Hdef k fresh) as [E|E]; [now left|right].
    now split. }
  destruct rest as [|next rest].
  - cbn [assign_path]. unfold assign_final.
    destruct (array_notation part) eqn:Ha; [|apply Hset].
    destruct Hw as [Hw|(b & i & Hbi)]; [congruence|].
    rewrite Hbi. cbn [bind].
    destruct (Hwalk b (VList [])) as [E|[E1 E2]].
    + now rewrite E.
    + rewrite E1. cbn [bind]. now rewrite E2.
  - rewrite assign_path_step.
    destruct (array_notation part) eqn:Ha.
    + destruct Hw as [Hw|(b & i & Hbi)]; [congruence|].
      rewrite Hbi. cbn [bind].
      destruct (Hwalk b (VList [])) as [E|[E1 E2]].
      * now rewrite E.
      * rewrite E1. cbn [bind]. now rewrite E2.
    + destruct (Hwalk part (VDict [])) as [E|[E1 E2]].
      * now rewrite E.
      * rewrite E1. cbn [bind]. now rewrite E2.
Qed.

Lemma walkable_or_malformed part : walkable part \/ malformed_index part.
Proof.
  unfold walkable. destruct (array_notation part) eqn:Ha; [|now left; left].
  unfold array_notation in Ha. apply andb_true_iff in Ha as [Ho Hc].
  apply has_char_index_of in Ho, Hc.
  destruct (index_of "[" part) as [i|] eqn:Hi; [|now contradiction Ho].
  destruct (index_of "]" part) as [j|] eqn:Hj; [|now contradiction Hc].
  destruct (py_int (slice (i + 1) j part)) as [z|] eqn:Hz.
  - left. right. exists (slice 0 i part), z. unfold base_and_index.
    now rewrite Hi, Hj, Hz.
  - right. exists (slice (i + 1) j part). unfold index_text.
    now rewrite Hi, Hj.
Qed.

(** X8.  The walk only passes through mappings.  When the value a
    plain segment is bound to, or the element an indexed segment selects,
    is not a mapping (a string of an earlier field, a [None] placeholder,
    a sequence), every longer key through it raises: [ValueError] when
    the next segment has both brackets and an index text that [int]
    rejects, which is found first, and [TypeError] for every other next
    segment. *)
Theorem walk_stops_at_non_mapping :
  forall d c next rest v,
    is_mapping c = false ->
    (walkable next \/ malformed_index next) /\
    (forall part,
       array_notation part = false ->
       dict_lookup (KStr part) d = Some c ->
       (walkable next ->
        assign_path (part :: next :: rest) v (VDict d) = inl TypeError) /\
       (malformed_index next ->
        assign_path (part :: next :: rest) v (VDict d) = inl ValueError)) /\
    (forall name ds old,
       bracket_free name = true -> digits ds = true ->
       bound_sequence d name = Some old ->
       nth_error old (Z.to_nat (decimal ds)) = Some c ->
       (walkable next ->
        assign_path (indexed name ds :: next :: rest) v (VDict d) = inl TypeError) /\
       (malformed_index next ->
        assign_path (indexed name ds :: next :: rest) v (VDict d) = inl ValueError)).
Proof.
  intros d c next rest v Hc. split; [apply walkable_or_malformed|]. split.
  - intros part Ha Hl.
    assert (Hrun : assign_path (part :: next :: rest) v (VDict d)
                   = (child <- assign_path (next :: rest) v c ;;
                      py_setitem (VDict d) (KStr part) child)).
    { rewrite assign_path_step, Ha.
      unfold setdefault. cbn [py_contains]. rewrite Hl. cbn [ret bind py_getitem].
      now rewrite Hl. }
    rewrite Hrun. split.
    + intro Hw. now rewrite (assign_path_not_mapping next rest v c Hc Hw).
    + intro Hbad. now rewrite (assign_path_malformed_first next rest v c Hbad).
  - intros name ds old Hn Hd Hb Hnth.
    rewrite (assign_path_indexed name ds next rest v d old Hn Hd Hb).
    rewrite (nth_error_nth _ _ (VDict []) Hnth). split.
    + intro Hw. now rewrite (assign_path_not_mapping next rest v c Hc Hw).
    + intro Hbad. now rewrite (assign_path_malformed_first next rest v c Hbad).
Qed.

(** X9.  An indexed final segment on a name that is bound to a mapping
    of [m] keys does not build a sequence: with an index of [m] or more
    it raises [AttributeError], with a smaller index the value is stored
    in the mapping under the integer key. *)
Theorem index_into_mapping :
  forall name ds d m v,
    bracket_free name = true -> digits ds = true ->
    dict_lookup (KStr name) d = Some (VDict m) ->
    ((Z.of_nat (List.length m) <= decimal ds)%Z ->
     assign_final (indexed name ds) v (VDict d) = inl AttributeError) /\
    ((decimal ds < Z.of_nat (List.length m))%Z ->
     assign_final (indexed name ds) v (VDict d)
     = inr (VDict (dict_set (KStr name)
                     (VDict (dict_set (KInt (decimal ds)) v m)) d))).
Proof.
  intros name ds d m v Hn Hd Hl.
  assert (Hrun : assign_final (indexed name ds) v (VDict d)
                 = (seq <- extend_to (VDict m) (decimal ds) VNone ;;
                    seq <- py_setitem seq (KInt (decimal ds)) v ;;
                    py_setitem (VDict d) (KStr name) seq)).
  { unfold assign_final.
    rewrite array_notation_indexed, (base_and_index_indexed name ds Hn Hd).
    cbn [bind]. unfold setdefault. cbn [py_contains]. rewrite Hl.
    cbn [ret bind py_getitem]. now rewrite Hl. }
  rewrite Hrun. unfold extend_to. cbn [py_len ret bind]. split; intro H.
  - destruct (Z.leb_spec (Z.of_nat (List.length m)) (decimal ds)); [reflexivity | lia].
  - destruct (Z.leb_spec (Z.of_nat (List.length m)) (decimal ds)); [lia | reflexivity].
Qed.

(** ** The constructor, continued *)

Lemma read_body_truthy request b : read_body request = inr b -> truthy b = true.
Proof.
  unfold ComponentRequest.read_body.
  destruct (decode request) as [e|v]; cbn [bind].
  - destruct e; discriminate.
  - destruct (truthy v) eqn:Hv; cbn [negb]; [|discriminate].
    intro H. now injection H as <-.
Qed.

Lemma py_get_mapping o k default v :
  py_get o k default = inr v -> exists d, o = VDict d /\ v = dict_get d k default.
Proof.
  destruct o; try discriminate. simpl. intro H. injection H as <-. now exists d.
Qed.

Lemma py_get_not_mapping o k default :
  is_mapping o = false -> py_get o k default = inl AttributeError.
Proof. destruct o; try reflexivity. discriminate. Qed.

(** X10.  No partially valid request is ever constructed: a request the
    constructor returns has a non-empty mapping as body, the given
    request and a truthy component name, [data] that is not [None], a
    truthy [id] and [epoch], all read from the body, and [key] and
    [hash] read from the body with the empty string as default. *)
Theorem constructed_request_is_valid :
  forall request name cr,
    init request name = inr cr ->
    exists d,
      read_body request = inr (VDict d) /\
      d <> [] /\
      ComponentRequest.body cr = VDict d /\
      ComponentRequest.request cr = request /\
      ComponentRequest.name cr = name /\ truthy name = true /\
      ComponentRequest.data cr = dict_get d "data" VNone /\
      ComponentRequest.data cr <> VNone /\
      ComponentRequest.id cr = dict_get d "id" VNone /\
      truthy (ComponentRequest.id cr) = true /\
      ComponentRequest.epoch cr = dict_get d "epoch" (VStr "") /\
      truthy (ComponentRequest.epoch cr) = true /\
      ComponentRequest.key cr = dict_get d "key" (VStr "") /\
      ComponentRequest.hash cr = dict_get d "hash" (VStr "").
Proof.
  intros request name cr. unfold ComponentRequest.init.
  destruct (read_body request) as [e|b] eqn:Hb; cbn [bind]; [discriminate|].
  destruct (truthy name) eqn:Hn; cbn [negb]; [|discriminate].
  destruct (py_get b "data" VNone) as [e|dat] eqn:Hd; cbn [bind]; [discriminate|].
  destruct (py_get_mapping _ _ _ _ Hd) as (d & -> & Hdat).
  cbn [py_get ret bind].
  destruct (is_None dat) eqn:Hnone; [discriminate|].
  destruct (truthy (dict_get d "id" VNone)) eqn:Hi; cbn [negb]; [|discriminate].
  destruct (truthy (dict_get d "epoch" (VStr ""))) eqn:He; cbn [negb]; [|discriminate].
  destruct (validate_checksum (VDict d) dat) as [e|[]]; cbn [bind]; [discriminate|].
  destruct (classify_actions (VDict d)) as [e|q]; cbn [bind]; [discriminate|].
  intro H. injection H as <-. cbn. exists d.
  repeat split; try assumption; try reflexivity.
  - intros ->. apply read_body_truthy in Hb. discriminate Hb.
  - intros ->. discriminate Hnone.
Qed.

(** X11.  A decoded body that is truthy but not a mapping (a sequence, a
    string, a number) only comes from a request that is not multipart,
    and the constructor, given a component name, raises
    [AttributeError] on it, at [body.get]. *)
Theorem non_mapping_body_raises :
  forall request name b,
    decode request = inr b -> truthy b = true -> is_mapping b = false ->
    ComponentRequest.is_multipart request = false /\
    (truthy name = true -> init request name = inl AttributeError) /\
    (truthy name = false ->
     init request name = inl (AssertionError "Missing component name")).
Proof.
  intros request name b Hdec Hb Hm.
  assert (Hr : read_body request = inr b).
  { unfold ComponentRequest.read_body. rewrite Hdec. cbn [bind]. now rewrite Hb. }
  split; [|split].
  - destruct (ComponentRequest.is_multipart request) eqn:E; [|reflexivity].
    unfold ComponentRequest.decode in Hdec. rewrite E in Hdec.
    destruct (parse_multipart_data_keys request b Hdec) as (d & -> & _).
    discriminate Hm.
  - intro Hn. unfold ComponentRequest.init. rewrite Hr. cbn [bind]. rewrite Hn.
    cbn [negb]. now rewrite (py_get_not_mapping b "data" VNone Hm).
  - intro Hn. now apply init_missing_name with b.
Qed.

Lemma classify_queue_first_failure good : forall queue bad rest err,
  Forall (fun entry => exists a, classify entry = inr a) good ->
  classify bad = inl err ->
  classify_queue queue (good ++ bad :: rest) = inl err.
Proof.
  induction good as [|entry good IH]; intros queue bad rest err Hgood Hbad.
  - cbn. now rewrite Hbad.
  - inversion Hgood as [|? ? (a & Ha) Hrest]; subst.
    cbn [app ComponentRequest.classify_queue]. rewrite Ha. cbn [bind].
    now apply IH.
Qed.

(** X12.  Classification raises on an entry that is not a mapping
    ([AttributeError]), on a method call whose payload is not a mapping
    ([AttributeError]), and on a method call whose name the parser
    rejects (the exception of the parser).  The first entry that raises
    decides: the entries before it are dropped with the queue, the ones
    after it are not looked at, and the constructor raises that
    exception although the checksum was accepted. *)
Theorem classification_stops_at_first_failure :
  (forall entry, is_mapping entry = false -> classify entry = inl AttributeError) /\
  (forall e,
     dict_get e "type" VNone = VStr "callMethod" ->
     is_mapping (dict_get e "payload" (VDict [])) = false ->
     classify (VDict e) = inl AttributeError) /\
  (forall e p err,
     dict_get e "type" VNone = VStr "callMethod" ->
     dict_get e "payload" (VDict []) = VDict p ->
     parse_call_method_name (dict_get p "name" (VStr "")) = inl err ->
     classify (VDict e) = inl err) /\
  (forall d good bad rest err,
     dict_lookup (KStr "actionQueue") d = Some (VList (good ++ bad :: rest)) ->
     Forall (fun entry => exists a, classify entry = inr a) good ->
     classify bad = inl err ->
     classify_actions (VDict d) = inl err /\
     (forall request name,
        read_body request = inr (VDict d) ->
        truthy name = true ->
        is_None (dict_get d "data" VNone) = false ->
        truthy (dict_get d "id" VNone) = true ->
        truthy (dict_get d "epoch" (VStr "")) = true ->
        validate_checksum (VDict d) (dict_get d "data" VNone) = inr tt ->
        init request name = inl err)).
Proof.
  split; [|split; [|split]].
  - intros entry H. unfold ComponentRequest.classify.
    now rewrite (py_get_not_mapping entry "type" VNone H).
  - intros e Ht Hp. unfold ComponentRequest.classify. cbn [py_get ret bind].
    rewrite Ht. cbn [eq_str]. change (String.eqb "callMethod" "syncInput") with false.
    change (String.eqb "callMethod" "callMethod") with true. cbv iota.
    now rewrite (py_get_not_mapping _ "name" (VStr "") Hp).
  - intros e p err Ht Hp Herr. unfold ComponentRequest.classify. cbn [py_get ret bind].
    rewrite Ht, Hp. cbn [eq_str py_get ret bind].
    change (String.eqb "callMethod" "syncInput") with false.
    change (String.eqb "callMethod" "callMethod") with true. cbv iota.
    now rewrite Herr.
  - intros d good bad rest err Hq Hgood Hbad.
    assert (Hc : classify_actions (VDict d) = inl err).
    { unfold ComponentRequest.classify_actions. cbn [py_get ret bind].
      rewrite (dict_get_lookup _ _ _ _ Hq). cbn [py_iter ret bind].
      now apply classify_queue_first_failure. }
    split; [exact Hc|].
    intros request name Hb Hn Hd Hi He Hv.
    rewrite (init_fields_present request name d Hb Hn Hd Hi He).
    unfold gate_then_classify. rewrite Hv. cbn [bind]. now rewrite Hc.
Qed.

(** X13.  The action queue is whatever iterating the [actionQueue] value
    gives.  An empty string, an empty mapping and an empty sequence all
    give the empty queue; [None], a boolean and a number cannot be
    iterated and raise [TypeError]; a non-empty string or mapping
    iterates over characters or keys, which have no [get], and raises
    [AttributeError]. *)
Theorem action_queue_of_other_types :
  forall d q,
    dict_lookup (KStr "actionQueue") d = Some q ->
    (q = VStr "" \/ q = VDict [] \/ q = VList [] ->
     classify_actions (VDict d) = inr []) /\
    (q = VNone \/ (exists b, q = VBool b) \/ (exists z, q = VInt z) ->
     classify_actions (VDict d) = inl TypeError) /\
    ((exists c s, q = VStr (String c s)) \/ (exists k x m, q = VDict ((k, x) :: m)) ->
     classify_actions (VDict d) = inl AttributeError).
Proof.
  intros d q Hq. unfold ComponentRequest.classify_actions. cbn [py_get ret bind].
  rewrite (dict_get_lookup _ _ _ _ Hq). split; [|split].
  - intros [-> | [-> | ->]]; reflexivity.
  - intros [-> | [(b & ->) | (z & ->)]]; reflexivity.
  - intros [(c & s & ->) | (k & x & m & ->)].
    + reflexivity.
    + destruct k; reflexivity.
Qed.

Lemma prefix_app (n s : string) : prefix n (n ++ s)%string = true.
Proof.
  induction n as [|c n IH]; simpl; [now destruct s|].
  destruct (ascii_dec c c) as [_|Hne]; [exact IH | now contradiction Hne].
Qed.

Lemma str_in_app (n pre post : string) : str_in n (pre ++ n ++ post)%string = true.
Proof.
  induction pre as [|c pre IH]; cbn [append].
  - destruct (n ++ post)%string eqn:E; cbn [str_in]; rewrite <- E, prefix_app;
      reflexivity.
  - cbn [str_in]. rewrite IH. apply orb_true_r.
Qed.

Lemma meta_get_absent k default m :
  (forall v, ~ In (k, v) m) -> ComponentRequest.meta_get k default m = default.
Proof.
  induction m as [|[k' v] m IH]; intro H; [reflexivity|]. simpl.
  destruct (String.eqb_spec k' k) as [->|_].
  - exfalso. apply (H v). now left.
  - apply IH. intros v' Hin. apply (H v'). now right.
Qed.

(** X14.  The decoder is chosen by a substring test on [CONTENT_TYPE]: a
    content type with [multipart/form-data] anywhere in it, whatever the
    boundary or other text around it, has the form fields parsed and the
    raw body left alone; a request without [CONTENT_TYPE] has its raw
    body decoded as structured text and its form fields left alone. *)
Theorem content_type_selects_decoder :
  (forall before after meta raw fields files,
     decode (HttpRequest.mk
               (("CONTENT_TYPE", before ++ "multipart/form-data" ++ after)%string
                  :: meta) raw fields files)
     = parse_multipart_data loads (HttpRequest.mk [] "" fields files)) /\
  (forall meta raw fields files,
     (forall v, ~ In ("CONTENT_TYPE", v) meta) ->
     decode (HttpRequest.mk meta raw fields files)
     = match loads raw with
       | Some v => inr v
       | None => inl JSONDecodeError
       end).
Proof.
  split.
  - intros before after meta raw fields files.
    unfold ComponentRequest.decode, ComponentRequest.is_multipart.
    cbn [HttpRequest.META ComponentRequest.meta_get].
    change (String.eqb "CONTENT_TYPE" "CONTENT_TYPE") with true. cbv iota.
    now rewrite str_in_app.
  - intros meta raw fields files Habsent.
    unfold ComponentRequest.decode, ComponentRequest.is_multipart.
    cbn [HttpRequest.META HttpRequest.body].
    now rewrite (meta_get_absent _ _ _ Habsent).
Qed.

(** ** The files pass *)

(** X15.  A file field whose key does not start with [data.] is
    ignored.  For a [data.] key without brackets the files pass walks
    as the POST pass does and, when it returns, the stored value can be
    read back along the key; a key of one segment replaces whatever a
    form field had bound to it.  The stored value is the file itself for
    exactly one file and the sequence of the files otherwise, the empty
    sequence included. *)
Theorem files_pass_on_plain_keys :
  forall data key file_list,
    (prefix "data." key = false -> file_field data (key, file_list) = inr data) /\
    (prefix "data." key = true ->
     Forall (fun part => array_notation part = false) (split "." (drop 5 key)) ->
     file_field data (key, file_list)
     = assign_path (split "." (drop 5 key)) (file_value file_list) data /\
     (forall r, file_field data (key, file_list) = inr r ->
                read_path (split "." (drop 5 key)) r = inr (file_value file_list))) /\
    (forall leaf d, key = ("data." ++ leaf)%string -> has_char "." leaf = false ->
       file_field (VDict d) (key, file_list)
       = inr (VDict (dict_set (KStr leaf) (file_value file_list) d))) /\
    (forall f, file_list = [f] -> file_value file_list = VFile f) /\
    (List.length file_list <> 1%nat ->
     file_value file_list = VList (map VFile file_list)).
Proof.
  intros data key file_list. split; [|split; [|split; [|split]]].
  - intro H. unfold file_field. now rewrite H.
  - intros Hk Hplain.
    assert (Hsame : file_field data (key, file_list)
                    = assign_path (split "." (drop 5 key)) (file_value file_list) data).
    { unfold file_field. rewrite Hk. now apply assign_file_path_plain. }
    split; [exact Hsame|]. intros r Hr. rewrite Hsame in Hr.
    now apply assign_path_read with data.
  - intros leaf d -> Hleaf. now apply file_field_leaf.
  - now intros f ->.
  - intro Hlen. destruct file_list as [|f [|g more]]; try reflexivity.
    now contradiction Hlen.
Qed.

(** ** The example component *)

(** X16.  [process_file] on a view that holds a file with a name copies
    the name and the size of the file, sets a type that is never empty
    (the content type, or ["unknown"] when it is empty) and reports the
    name; on a view without a file, or with a file whose name is empty,
    it only sets the message and leaves the name, size and type of an
    earlier file in place.  Processing twice is processing once, and
    processing after [clear_file], which forgets the file and its
    metadata whatever the view held, reports that no file was uploaded
    and leaves the metadata empty. *)
Theorem process_file_outcomes :
  forall self,
    (forall f, FileUploadView.uploaded_file self = Some f -> file_name f <> "" ->
       let after := FileUploadView.process_file self in
       FileUploadView.uploaded_file after = Some f /\
       FileUploadView.file_name after = file_name f /\
       FileUploadView.file_size after = file_size f /\
       FileUploadView.file_type after <> "" /\
       (file_content_type f <> "" ->
        FileUploadView.file_type after = file_content_type f) /\
       (file_content_type f = "" -> FileUploadView.file_type after = "unknown") /\
       FileUploadView.upload_message after
       = ("Successfully processed " ++ file_name f)%string) /\
    (FileUploadView.uploaded_file self = None \/
     (exists f, FileUploadView.uploaded_file self = Some f /\ file_name f = "") ->
     FileUploadView.process_file self
     = FileUploadView.mk (FileUploadView.uploaded_file self)
         (FileUploadView.file_name self) (FileUploadView.file_size self)
         (FileUploadView.file_type self) "No file uploaded") /\
    FileUploadView.process_file (FileUploadView.process_file self)
    = FileUploadView.process_file self /\
    FileUploadView.process_file (FileUploadView.clear_file self)
    = FileUploadView.mk None "" 0 "" "No file uploaded".
Proof.
  intro self. split; [|split; [|split]].
  - intros f Hf Hname after. subst after. unfold FileUploadView.process_file.
    rewrite Hf. cbn [truthy]. apply String.eqb_neq in Hname. rewrite Hname.
    cbn [negb]. destruct f as [name size ctype lines]. cbn.
    unfold FileUploadView.or_default.
    destruct (String.eqb_spec ctype "") as [->|Hc].
    + repeat split; try reflexivity; try discriminate. intro H. now contradiction H.
    + repeat split; try reflexivity; try assumption. intro H. now contradiction Hc.
  - intros [H|(f & H & Hname)]; unfold FileUploadView.process_file; rewrite H.
    + reflexivity.
    + cbn [truthy]. now rewrite Hname.
  - destruct self as [[[name size ctype lines]|] n s t m];
      unfold FileUploadView.process_file; cbn; [|reflexivity].
    destruct (String.eqb name "") eqn:Hn; cbn; now rewrite Hn.
  - reflexivity.
Qed.

(** ** Fields with different top keys *)

Lemma bind_assoc {A B C : Type} (m : res A) (f : A -> res B) (g : B -> res C) :
  bind (bind m f) g = bind m (fun a => bind (f a) g).
Proof. now destruct m. Qed.

(** What a path assigns below its top key depends on the body only
    through the value bound to that key. *)
Lemma assign_path_local part rest v :
  exists update : option value -> res value,
    forall d,
      assign_path (part :: rest) v (VDict d)
      = (x <- update (dict_lookup (KStr (first_key part)) d) ;;
         ret (VDict (dict_set (KStr (first_key part)) x d))).
Proof.
  assert (Hdefault : forall d k fresh (f : value -> res value),
             (current <- setdefault (VDict d) k fresh ;;
              seq <- py_getitem current (KStr k) ;;
              x <- f seq ;;
              py_setitem current (KStr k) x)
             = (x <- f (match dict_lookup (KStr k) d with
                        | Some s => s
                        | None => fresh
                        end) ;;
                ret (VDict (dict_set (KStr k) x d)))).
  { intros d k fresh f. unfold setdefault. cbn [py_contains].
    destruct (dict_lookup (KStr k) d) as [s|] eqn:E;
      cbn [ret bind py_getitem py_setitem].
    - rewrite E. cbn [ret bind]. now destruct (f s).
    - rewrite dict_lookup_set_same. cbn [ret bind].
      destruct (f fresh) as [e|x]; [reflexivity|]. cbn [bind py_setitem ret].
      now rewrite dict_set_set. }
  destruct (array_notation part) eqn:Ha.
  - destruct (base_and_index part) as [e|[b i]] eqn:Hbi.
    + exists (fun _ => inl e). intro d. destruct rest as [|next rest].
      * cbn [assign_path]. unfold assign_final. now rewrite Ha, Hbi.
      * now rewrite assign_path_step, Ha, Hbi.
    + rewrite (base_and_index_first_key part b i Ha Hbi).
      destruct rest as [|next rest].
      * exists (fun old =>
                  seq <- extend_to (match old with Some s => s | None => VList [] end)
                                   i VNone ;;
                  py_setitem seq (KInt i) v).
        intro d. cbn [assign_path]. unfold assign_final. rewrite Ha, Hbi.
        cbn [bind].
        rewrite <- (Hdefault d b (VList [])
                      (fun seq => seq <- extend_to seq i VNone ;;
                                  py_setitem seq (KInt i) v)).
        destruct (setdefault (VDict d) b (VList [])) as [e|c]; [reflexivity|].
        cbn [bind]. destruct (py_getitem c (KStr b)) as [e|s]; [reflexivity|].
        cbn [bind]. now rewrite bind_assoc.
      * exists (fun old =>
                  seq <- extend_to (match old with Some s => s | None => VList [] end)
                                   i (VDict []) ;;
                  child <- py_getitem seq (KInt i) ;;
                  child <- assign_path (next :: rest) v child ;;
                  py_setitem seq (KInt i) child).
        intro d. rewrite assign_path_step, Ha, Hbi. cbn [bind].
        rewrite <- (Hdefault d b (VList [])
                      (fun seq =>
                         seq <- extend_to seq i (VDict []) ;;
                         child <- py_getitem seq (KInt i) ;;
                         child <- assign_path (next :: rest) v child ;;
                         py_setitem seq (KInt i) child)).
        destruct (setdefault (VDict d) b (VList [])) as [e|c]; [reflexivity|].
        cbn [bind]. destruct (py_getitem c (KStr b)) as [e|s]; [reflexivity|].
        cbn [bind]. rewrite !bind_assoc.
        destruct (extend_to s i (VDict [])) as [e|s']; [reflexivity|].
        cbn [bind]. rewrite !bind_assoc.
        destruct (py_getitem s' (KInt i)) as [e|ch]; [reflexivity|].
        cbn [bind]. now rewrite !bind_assoc.
  - assert (Hk : first_key part = part) by (unfold first_key; now rewrite Ha).
    rewrite Hk. destruct rest as [|next rest].
    + exists (fun _ => ret v). intro d. cbn [assign_path]. unfold assign_final.
      now rewrite Ha.
    + exists (fun old =>
                assign_path (next :: rest) v
                  (match old with Some c => c | None => VDict [] end)).
      intro d. rewrite assign_path_step, Ha.
      exact (Hdefault d part (VDict []) (assign_path (next :: rest) v)).
Qed.

Lemma post_field_local key field :
  exists update : option value -> res value,
    forall d,
      post_field loads (VDict d) (key, field)
      = (x <- update (dict_lookup (KStr (top_key key)) d) ;;
         ret (VDict (dict_set (KStr (top_key key)) x d))).
Proof.
  unfold post_field, top_key. destruct (prefix "data." key).
  - destruct (split "." (drop 5 key)) as [|part rest] eqn:Hs.
    + exists (fun _ => inl IndexError). intro d. reflexivity.
    + cbn [hd]. apply assign_path_local.
  - destruct (String.eqb key "actionQueue").
    + exists (fun _ => match loads field with
                       | Some v => ret v
                       | None => inl JSONDecodeError
                       end).
      intro d. now destruct (loads field).
    + exists (fun _ => ret (VStr field)). intro d. reflexivity.
Qed.

(** X17.  Form fields with different top keys do not interfere: when
    two such fields are assigned one after the other without an
    exception, they are in the other order too, and the two bodies bind
    every key to the same value (the order of the keys aside). *)
Theorem unrelated_fields_commute :
  forall d key1 field1 key2 field2 r,
    top_key key1 <> top_key key2 ->
    for_each (post_field loads) [(key1, field1); (key2, field2)] (VDict d) = inr r ->
    exists d12 d21,
      r = VDict d12 /\
      for_each (post_field loads) [(key2, field2); (key1, field1)] (VDict d)
      = inr (VDict d21) /\
      forall k, dict_lookup k d12 = dict_lookup k d21.
Proof.
  intros d key1 field1 key2 field2 r Hne H.
  destruct (post_field_local key1 field1) as [u1 H1].
  destruct (post_field_local key2 field2) as [u2 H2].
  assert (Hk : KStr (top_key key1) <> KStr (top_key key2)) by congruence.
  assert (Hk' : KStr (top_key key2) <> KStr (top_key key1)) by congruence.
  cbn [for_each] in H |- *. rewrite H1 in H. rewrite H2.
  destruct (u1 (dict_lookup (KStr (top_key key1)) d)) as [e|x1] eqn:E1;
    cbn [ret bind] in H; [discriminate|].
  rewrite H2 in H. rewrite (dict_lookup_set_other _ _ x1 d Hk') in H.
  destruct (u2 (dict_lookup (KStr (top_key key2)) d)) as [e|x2] eqn:E2;
    cbn [ret bind] in H |- *; [discriminate|].
  injection H as <-.
  rewrite H1, (dict_lookup_set_other _ _ x2 d Hk), E1. cbn [ret bind].
  eexists. eexists. split; [reflexivity|]. split; [reflexivity|].
  intro k.
  destruct (pykey_eqb k (KStr (top_key key1))) eqn:Ek1.
  - apply pykey_eqb_eq in Ek1. subst k.
    rewrite (dict_lookup_set_other _ _ x2 _ Hk), !dict_lookup_set_same. reflexivity.
  - assert (Hn1 : k <> KStr (top_key key1)).
    { intro E. apply pykey_eqb_eq in E. congruence. }
    rewrite (dict_lookup_set_other k _ x1 (dict_set _ x2 d) Hn1).
    destruct (pykey_eqb k (KStr (top_key key2))) eqn:Ek2.
    + apply pykey_eqb_eq in Ek2. subst k. now rewrite !dict_lookup_set_same.
    + assert (Hn2 : k <> KStr (top_key key2)).
      { intro E. apply pykey_eqb_eq in E. congruence. }
      now rewrite !(dict_lookup_set_other k _ _ _ Hn2),
                  (dict_lookup_set_other k _ x1 d Hn1).
Qed.

(** ** The passes as a whole *)

(** X18.  The first field that raises ends the parse with its
    exception: the fields after it are not assigned, the files pass is
    not run, and what the earlier fields built is not returned.  The
    same holds for the first file field that raises, whatever the form
    fields and the earlier file fields have built. *)
Theorem parse_stops_at_first_failing_field :
  forall meta raw,
    (forall before field after files data e,
       for_each (post_field loads) before (VDict []) = inr data ->
       post_field loads data field = inl e ->
       parse_multipart_data loads
         (HttpRequest.mk meta raw (before ++ field :: after) files) = inl e) /\
    (forall fields files_before file files_after built data e,
       for_each (post_field loads) fields (VDict []) = inr built ->
       for_each file_field files_before built = inr data ->
       file_field data file = inl e ->
       parse_multipart_data loads
         (HttpRequest.mk meta raw fields (files_before ++ file :: files_after))
       = inl e).
Proof.
  intros meta raw. split.
  - intros before field after files data e Hbefore Hfail.
    unfold parse_multipart_data. cbn [HttpRequest.POST].
    rewrite for_each_app, Hbefore. cbn [bind for_each]. now rewrite Hfail.
  - intros fields files_before file files_after built data e Hfields Hfiles Hfail.
    unfold parse_multipart_data. cbn [HttpRequest.POST HttpRequest.FILES].
    rewrite Hfields. cbn [bind]. rewrite for_each_app, Hfiles.
    cbn [bind for_each]. now rewrite Hfail.
Qed.

(** X19.  A form that parses gives an empty body exactly when it has no
    form field and no [data.] file field; so among the multipart
    requests that parse, those are the ones the constructor rejects with
    [AssertionError("Invalid body")]. *)
Theorem empty_form_is_invalid_body :
  forall request b,
    parse_multipart_data loads request = inr b ->
    (truthy b = false <-> field_keys request = []) /\
    (ComponentRequest.is_multipart request = true ->
     field_keys request = [] ->
     forall name, init request name = inl (AssertionError "Invalid body")).
Proof.
  intros request b Hp.
  destruct (parse_multipart_data_keys request b Hp) as (d & -> & Hk).
  assert (Hiff : truthy (VDict d) = false <-> field_keys request = []).
  { split.
    - intro Ht. destruct d as [|kv d]; [|discriminate].
      destruct (field_keys request) as [|s keys] eqn:E; [reflexivity|].
      exfalso. apply (proj2 (Hk (KStr s))); [|reflexivity].
      exists s. split; [reflexivity | now left].
    - intro Hnone. destruct d as [|[k x] d]; [reflexivity|]. exfalso.
      destruct (proj1 (Hk k)) as (s & _ & Hin).
      + unfold bound. cbn. now rewrite pykey_eqb_refl.
      + rewrite Hnone in Hin. contradiction. }
  split; [exact Hiff|].
  intros Hm Hnone name. apply init_read_error.
  rewrite (read_body_multipart request d Hm Hp).
  now rewrite (proj2 Hiff Hnone).
Qed.
End Properties.

(** * The model on explicit inputs *)


(** C6: the error for an empty decoded body and the error for a missing
    required field are of the same class. *)
Lemma empty_body_shares_error_class :
  Sample.new_request (Sample.json "{}") (VStr "hello")
  = inl (AssertionError "Invalid body") /\
  Sample.new_request (Sample.multipart [] []) (VStr "hello")
  = inl (AssertionError "Invalid body") /\
  Sample.new_request (Sample.multipart [("id", "abc")] []) (VStr "hello")
  = inl (AssertionError "Missing data") /\
  class_of (AssertionError "Invalid body") = class_of (AssertionError "Missing data").
Proof. repeat split; reflexivity. Qed.

(** C7: one file under [data.docs[0]] is stored under the key
    ["docs[0]"] by the files pass, where the POST pass builds the
    sequence [docs] for the same key. *)
Theorem files_pass_keeps_bracket_text :
  parse_multipart_data Sample.loads
    (Sample.multipart [] [("data.docs[0]", [Sample.report])])
  = inr (VDict [(KStr "docs[0]", VFile Sample.report)]) /\
  parse_multipart_data Sample.loads
    (Sample.multipart [("data.docs[0]", "v")] [])
  = inr (VDict [(KStr "docs", VList [VStr "v"])]).
Proof. split; reflexivity. Qed.

(** One file under [data.upload] is stored as the file itself, two files
    as the sequence of the two in their order. *)
Example one_file_and_two_files :
  parse_multipart_data Sample.loads
    (Sample.multipart [] [("data.upload", [Sample.report])])
  = inr (VDict [(KStr "upload", VFile Sample.report)]) /\
  parse_multipart_data Sample.loads
    (Sample.multipart [] [("data.upload", [Sample.report; Sample.photo])])
  = inr (VDict [(KStr "upload", VList [VFile Sample.report; VFile Sample.photo])]).
Proof. split; reflexivity. Qed.

(** A toggle call, an input synchronisation and an entry of an unknown
    type are classified in the order of the queue. *)
Example three_mixed_actions :
  ComponentRequest.classify_actions Sample.parse_call_method_name
    (VDict Sample.queue_fields)
  = inr [Toggle (VDict Sample.toggle_entry); SyncInput (VDict Sample.sync_entry);
         Action (VDict Sample.unknown_entry)].
Proof. reflexivity. Qed.

(** The sample request whose checksum is the digest followed by [x]. *)
Lemma checksum_gate_outcomes_witness :
  Sample.new_request Sample.tampered (VStr "hello")
  = inl (AssertionError "Checksum does not match").
Proof.
  pose proof (checksum_gate_outcomes Sample.loads Sample.generate_checksum
                Sample.parse_call_method_name Sample.tampered_fields
                (VStr "payload")) as H.
  cbv zeta in H. destruct H as (_ & _ & _ & Hdigest & Hinit).
  destruct (Hdigest "sum:payload" eq_refl) as (_ & _ & Hx).
  destruct (Hinit Sample.tampered (VStr "hello")
              eq_refl eq_refl eq_refl eq_refl eq_refl eq_refl) as [Hfail _].
  apply Hfail. apply Hx. reflexivity.
Defined.

(** A form with [data] and neither [id] nor [epoch]. *)
Lemma validation_order_witness :
  Sample.new_request (Sample.multipart [("data", "payload")] []) (VStr "hello")
  = inl (AssertionError "Missing component id").
Proof.
  pose proof (validation_order Sample.loads Sample.generate_checksum
                Sample.parse_call_method_name
                (Sample.multipart [("data", "payload")] []) (VStr "hello")) as H.
  destruct H as (_ & _ & H).
  specialize (H [(KStr "data", VStr "payload")] eq_refl eq_refl).
  cbv zeta in H. destruct H as (_ & _ & _ & _ & H).
  apply H; reflexivity.
Defined.

(** The sample queue of three raw actions. *)
Lemma classifier_one_per_entry_witness :
  exists acts,
    ComponentRequest.classify_actions Sample.parse_call_method_name
      (VDict Sample.queue_fields) = inr acts /\
    List.length acts = 3%nat.
Proof.
  assert (Hraw : Forall (raw_action Sample.parse_call_method_name)
                   [VDict Sample.toggle_entry; VDict Sample.sync_entry;
                    VDict Sample.unknown_entry]).
  { repeat constructor.
    - exists Sample.toggle_entry. split; [reflexivity|]. intros _.
      exists [(KStr "name", VStr "$toggle('show')")], ("$toggle", [], []).
      split; reflexivity.
    - exists Sample.sync_entry. split; [reflexivity|]. discriminate.
    - exists Sample.unknown_entry. split; [reflexivity|]. discriminate. }
  destruct (classifier_one_per_entry Sample.parse_call_method_name
              Sample.queue_fields _ eq_refl Hraw) as ((acts & Hc & _ & _ & Hlen) & _).
  exists acts. split; [exact Hc | exact Hlen].
Defined.

(** The final segment [items[2]] on an empty mapping. *)
Lemma indexed_segment_extends_witness :
  exists seq,
    assign_final "items[2]" (VStr "v") (VDict [])
    = inr (VDict [(KStr "items", VList seq)]) /\
    List.length seq = 3%nat.
Proof.
  destruct (indexed_segment_extends Sample.loads "items" "2" [] [] (VStr "v")
              eq_refl eq_refl eq_refl) as ((seq & Ha & Hlen & _) & _).
  exists seq. split; [exact Ha | exact Hlen].
Defined.


(** A body that is not structured text. *)
Lemma error_classes_witness :
  Sample.new_request (Sample.json "{oops") (VStr "hello")
  = inl (UnicornViewError "Body could not be parsed").
Proof.
  apply (error_classes Sample.loads Sample.generate_checksum
           Sample.parse_call_method_name (Sample.json "{oops") (VStr "hello")).
  reflexivity.
Defined.

(** A request whose checksum does not match and whose queue holds an
    entry that classification would raise on: the constructor raises the
    exception of the gate. *)
Lemma checksum_before_classification_witness :
  ComponentRequest.classify_actions Sample.parse_call_method_name
    (VDict gated_fields) = inl AttributeError /\
  ComponentRequest.init loads_with_sequence Sample.generate_checksum
    Sample.parse_call_method_name gated (VStr "hello")
  = inl (AssertionError "Checksum does not match").
Proof.
  split; [reflexivity|].
  destruct (checksum_before_classification loads_with_sequence
              Sample.generate_checksum Sample.parse_call_method_name
              gated (VStr "hello")) as (_ & _ & H & _).
  destruct (H gated_fields (AssertionError "Checksum does not match")
              eq_refl eq_refl eq_refl eq_refl eq_refl eq_refl) as (Hinit & _).
  exact Hinit.
Defined.

(** The accepted sample request has no [actionQueue] field. *)
Lemma absent_action_queue_accepted_witness :
  Sample.new_request Sample.accepted (VStr "hello")
  = inr (ComponentRequest.mk [] (VDict Sample.accepted_fields) (VStr "payload")
           (VStr "17") (VStr "") (VStr "abc") (VStr "") (VStr "hello")
           Sample.accepted).
Proof.
  apply (absent_action_queue_accepted Sample.loads Sample.generate_checksum
           Sample.parse_call_method_name Sample.accepted (VStr "hello")
           Sample.accepted_fields); reflexivity.
Defined.

(** A document whose [data] is the empty mapping reaches the checksum check. *)
Lemma asymmetric_emptiness_witness :
  Sample.new_request (Sample.json Sample.empty_data_text) (VStr "hello")
  = inl (AssertionError "Missing checksum").
Proof.
  pose proof (asymmetric_emptiness Sample.loads Sample.generate_checksum
                Sample.parse_call_method_name
                (Sample.json Sample.empty_data_text) (VStr "hello")
                Sample.empty_data_fields eq_refl eq_refl) as H.
  cbv zeta in H. destruct H as (_ & _ & H & _).
  unfold Sample.new_request. rewrite H; reflexivity.
Defined.

(** * The further properties on explicit inputs *)

(** The field [data.items[2].x] read back from the body it built. *)
Lemma assigned_field_reads_back_witness :
  read_path ["items[2]"; "x"]
    (VDict [(KStr "items",
             VList [VDict []; VDict []; VDict [(KStr "x", VStr "v")]])])
  = inr (VStr "v").
Proof.
  apply (assigned_field_reads_back Sample.loads (VDict []) "data.items[2].x" "v");
    reflexivity.
Defined.

(** The field [data.a.b] on a body that already binds [id]. *)
Lemma field_binds_one_key_witness :
  exists d',
    post_field Sample.loads (VDict [(KStr "id", VStr "7")]) ("data.a.b", "1")
    = inr (VDict d') /\
    dict_lookup (KStr "id") d' = Some (VStr "7").
Proof.
  destruct (field_binds_one_key Sample.loads [(KStr "id", VStr "7")]
              "data.a.b" "1" _ eq_refl) as (d' & Hr & _ & Hother & _).
  exists d'. split.
  - rewrite <- Hr. reflexivity.
  - rewrite Hother; [reflexivity | discriminate].
Defined.

(** A form with two fields and one file. *)
Lemma parsed_form_is_mapping_of_field_keys_witness :
  exists d,
    parse_multipart_data Sample.loads
      (Sample.multipart [("data.a.b", "1"); ("id", "7")]
         [("data.f", [Sample.report])])
    = inr (VDict d) /\
    bound (KStr "f") d.
Proof.
  destruct (parsed_form_is_mapping_of_field_keys Sample.loads
              (Sample.multipart [("data.a.b", "1"); ("id", "7")]
                 [("data.f", [Sample.report])]) _ eq_refl) as (d & Hb & Hk).
  exists d. split.
  - rewrite <- Hb. reflexivity.
  - apply Hk. exists "f". split; [reflexivity|]. cbn. tauto.
Defined.

(** A form with the single field [data.items[2].x]. *)
Lemma data_fields_do_not_bind_data_witness :
  Sample.new_request (Sample.multipart [("data.items[2].x", "v")] []) (VStr "hello")
  = inl (AssertionError "Missing data").
Proof.
  assert (Hno : ~ In "data"
                  (field_keys (Sample.multipart [("data.items[2].x", "v")] []))).
  { cbn. intros [H|[]]. discriminate H. }
  destruct (data_fields_do_not_bind_data Sample.loads Sample.generate_checksum
              Sample.parse_call_method_name
              (Sample.multipart [("data.items[2].x", "v")] []) (VStr "hello")
              eq_refl Hno) as (_ & H & _).
  apply (H _ eq_refl); reflexivity.
Defined.

(** An [actionQueue] field that is not structured text. *)
Lemma action_queue_field_is_decoded_witness :
  parse_multipart_data Sample.loads (Sample.multipart [("actionQueue", "nope")] [])
  = inl JSONDecodeError.
Proof.
  pose proof (action_queue_field_is_decoded Sample.loads Sample.generate_checksum
                Sample.parse_call_method_name
                [("CONTENT_TYPE", "multipart/form-data; boundary=x")] ""
                [] "nope" [] [] [] eq_refl) as H.
  cbv zeta in H. destruct H as (_ & H). now apply H.
Defined.

(** The segment [a[1]b] against the segment [a[1]]. *)
Lemma text_after_bracket_is_ignored_witness :
  assign_path ["a[1]b"] (VStr "v") (VDict [])
  = assign_path ["a[1]"] (VStr "v") (VDict []).
Proof.
  apply (text_after_bracket_is_ignored "a" "1" "b" [] (VStr "v") (VDict []));
    reflexivity.
Defined.

(** The segment [a[-1]] on a sequence of two elements. *)
Lemma negative_index_counts_from_end_witness :
  assign_final "a[-1]" (VStr "v") (VDict [(KStr "a", VList [VStr "x"; VStr "y"])])
  = inr (VDict [(KStr "a", VList [VStr "x"; VStr "v"])]).
Proof.
  pose proof (negative_index_counts_from_end "a" "1"
                [(KStr "a", VList [VStr "x"; VStr "y"])] [VStr "x"; VStr "y"]
                (VStr "v") eq_refl eq_refl eq_refl eq_refl) as H.
  cbv zeta in H. destruct H as (H & _).
  apply H. vm_compute. lia.
Defined.

(** The keys [a.b] and [a.b[x]] after [a] was bound to a string. *)
Lemma walk_stops_at_non_mapping_witness :
  assign_path ["a"; "b"] (VStr "v") (VDict [(KStr "a", VStr "x")]) = inl TypeError /\
  assign_path ["a"; "b[x]"] (VStr "v") (VDict [(KStr "a", VStr "x")])
  = inl ValueError.
Proof.
  split.
  - destruct (walk_stops_at_non_mapping [(KStr "a", VStr "x")] (VStr "x") "b" []
                (VStr "v") eq_refl) as (_ & H & _).
    apply (H "a" eq_refl eq_refl). now left.
  - destruct (walk_stops_at_non_mapping [(KStr "a", VStr "x")] (VStr "x") "b[x]" []
                (VStr "v") eq_refl) as (_ & H & _).
    apply (H "a" eq_refl eq_refl). exists "x". now split.
Defined.

(** The segment [a[0]] after [a] was bound to a mapping of one key. *)
Lemma index_into_mapping_witness :
  assign_final "a[0]" (VStr "v") (VDict [(KStr "a", VDict [(KStr "x", VStr "1")])])
  = inr (VDict [(KStr "a", VDict [(KStr "x", VStr "1"); (KInt 0, VStr "v")])]).
Proof.
  apply (index_into_mapping "a" "0" [(KStr "a", VDict [(KStr "x", VStr "1")])]
           [(KStr "x", VStr "1")] (VStr "v") eq_refl eq_refl eq_refl).
  reflexivity.
Defined.

(** The accepted sample request. *)
Lemma constructed_request_is_valid_witness :
  exists d,
    ComponentRequest.read_body Sample.loads Sample.accepted = inr (VDict d) /\
    d <> [].
Proof.
  destruct (constructed_request_is_valid Sample.loads Sample.generate_checksum
              Sample.parse_call_method_name Sample.accepted (VStr "hello") _
              eq_refl) as (d & Hr & Hne & _).
  exists d. split; assumption.
Defined.

(** A body that is a sequence of one number. *)
Lemma non_mapping_body_raises_witness :
  ComponentRequest.init loads_with_sequence Sample.generate_checksum
    Sample.parse_call_method_name (Sample.json "[1]") (VStr "hello")
  = inl AttributeError.
Proof.
  destruct (non_mapping_body_raises loads_with_sequence Sample.generate_checksum
              Sample.parse_call_method_name (Sample.json "[1]") (VStr "hello")
              (VList [VInt 1]) eq_refl eq_refl eq_refl) as (_ & H & _).
  now apply H.
Defined.

(** A queue whose second entry is a string. *)
Lemma classification_stops_at_first_failure_witness :
  ComponentRequest.classify_actions Sample.parse_call_method_name
    (VDict broken_queue_fields)
  = inl AttributeError.
Proof.
  destruct (classification_stops_at_first_failure Sample.loads
              Sample.generate_checksum Sample.parse_call_method_name)
    as (Hentry & _ & _ & Hqueue).
  apply (Hqueue broken_queue_fields
           [VDict Sample.sync_entry] (VStr "oops") [VDict Sample.unknown_entry]
           AttributeError eq_refl).
  - repeat constructor. now eexists.
  - now apply Hentry.
Defined.

(** An [actionQueue] that is the empty string. *)
Lemma action_queue_of_other_types_witness :
  ComponentRequest.classify_actions Sample.parse_call_method_name
    (VDict [(KStr "actionQueue", VStr "")])
  = inr [].
Proof.
  apply (action_queue_of_other_types Sample.parse_call_method_name
           [(KStr "actionQueue", VStr "")] (VStr "") eq_refl).
  now left.
Defined.

(** A request without a content type. *)
Lemma content_type_selects_decoder_witness :
  ComponentRequest.decode Sample.loads
    (HttpRequest.mk [("HTTP_HOST", "example.org")] "{}" [("id", "7")] [])
  = inr (VDict []).
Proof.
  destruct (content_type_selects_decoder Sample.loads) as (_ & H).
  rewrite H; [reflexivity|].
  intros v [E|[]]. discriminate E.
Defined.

(** One file under [data.upload]. *)
Lemma files_pass_on_plain_keys_witness :
  file_field (VDict []) ("data.upload", [Sample.report])
  = assign_path ["upload"] (VFile Sample.report) (VDict []).
Proof.
  destruct (files_pass_on_plain_keys (VDict []) "data.upload" [Sample.report])
    as (_ & H & _).
  apply H; [reflexivity|]. repeat constructor.
Defined.

(** A view that holds the sample report. *)
Lemma process_file_outcomes_witness :
  FileUploadView.file_name
    (FileUploadView.process_file
       (FileUploadView.mk (Some Sample.report) "" 0 "" ""))
  = "report.txt".
Proof.
  destruct (process_file_outcomes
              (FileUploadView.mk (Some Sample.report) "" 0 "" "")) as (H & _).
  destruct (H Sample.report eq_refl) as (_ & Hname & _); [discriminate|].
  exact Hname.
Defined.

(** The fields [data.a.b] and [id] in both orders. *)
Lemma unrelated_fields_commute_witness :
  exists d12 d21,
    for_each (post_field Sample.loads) [("data.a.b", "1"); ("id", "7")] (VDict [])
    = inr (VDict d12) /\
    for_each (post_field Sample.loads) [("id", "7"); ("data.a.b", "1")] (VDict [])
    = inr (VDict d21) /\
    dict_lookup (KStr "id") d12 = dict_lookup (KStr "id") d21.
Proof.
  assert (Hne : top_key "data.a.b" <> top_key "id") by discriminate.
  destruct (unrelated_fields_commute Sample.loads [] "data.a.b" "1" "id" "7" _
              Hne eq_refl) as (d12 & d21 & Hr & H21 & Hsame).
  exists d12, d21. split; [|split].
  - rewrite <- Hr. reflexivity.
  - exact H21.
  - apply Hsame.
Defined.

(** A form whose first field has a letter as index, and a form whose
    second file goes through the first. *)
Lemma parse_stops_at_first_failing_field_witness :
  parse_multipart_data Sample.loads
    (Sample.multipart [("data.a[x]", "v"); ("id", "7")] [("data.f", [Sample.report])])
  = inl ValueError /\
  parse_multipart_data Sample.loads
    (Sample.multipart [("id", "7")]
       [("data.f", [Sample.report]); ("data.f.g", [Sample.photo]);
        ("data.h", [Sample.photo])])
  = inl TypeError.
Proof.
  destruct (parse_stops_at_first_failing_field Sample.loads
              [("CONTENT_TYPE", "multipart/form-data; boundary=x")] "")
    as (Hfield & Hfile).
  split.
  - apply (Hfield [] ("data.a[x]", "v") [("id", "7")]
             [("data.f", [Sample.report])] (VDict []) ValueError); reflexivity.
  - apply (Hfile [("id", "7")] [("data.f", [Sample.report])]
             ("data.f.g", [Sample.photo]) [("data.h", [Sample.photo])]
             (VDict [(KStr "id", VStr "7")])
             (VDict [(KStr "id", VStr "7"); (KStr "f", VFile Sample.report)])
             TypeError); reflexivity.
Defined.

(** A multipart request without fields. *)
Lemma empty_form_is_invalid_body_witness :
  Sample.new_request (Sample.multipart [] []) (VStr "hello")
  = inl (AssertionError "Invalid body").
Proof.
  destruct (empty_form_is_invalid_body Sample.loads Sample.generate_checksum
              Sample.parse_call_method_name (Sample.multipart [] []) (VDict [])
              eq_refl) as (_ & H).
  now apply H.
Defined.
